(** * gluestick: JSON-in-cell flattening helpers over tables

    A shallow embedding of [gluestick.py] and the properties its
    specification states about it.

    The Python code runs on top of pandas and of the standard library
    ([ast.literal_eval], [os], [functools.reduce]).  Python values, the
    dictionaries with their insertion order, the exceptions, and the store in
    which the caller's tables live are written out here; the pandas
    operations the code calls are given as functions on a table value, each
    with the pandas behaviour it follows stated next to it (pandas 1.x, the
    version for which [drop(label, 1)] is the column drop). *)

From Stdlib Require Import ZArith String Ascii List Bool Lia DecimalString.
From stdpp Require Import base option list strings gmap.

Local Open Scope Z_scope.
Local Open Scope string_scope.
Local Open Scope list_scope.
Local Set Warnings "-register-all".

(** ** Python values *)

(** The values a cell can hold: scalars, the missing-value marker [nan]
    that pandas uses, text, arrays, and objects.  An object is a Python
    [dict] with text keys; its entries are kept in insertion order.  Floats
    other than [nan] are not represented. *)
Inductive PyVal : Type :=
| VNone
| VBool (b : bool)
| VInt (z : Z)
| VNaN
| VStr (s : string)
| VList (xs : list PyVal)
| VDict (kvs : list (string * PyVal)).

(** Hashable values, as they serve as dictionary keys, column labels and row
    labels.  Python's [True] and [False] are the keys [1] and [0]. *)
Inductive PyKey : Type :=
| KNone
| KInt (z : Z)
| KNaN
| KStr (s : string).

#[global] Instance PyKey_eq_dec : EqDecision PyKey.
Proof. solve_decision. Defined.

(** The exceptions the code can meet.  [Unsupported] is not one of Python's:
    it marks the few paths this development does not follow. *)
Inductive PyExc : Type :=
| KeyError
| IndexError
| TypeError
| ValueError
| SyntaxError
| AttributeError
| Unsupported.

Inductive Result (A : Type) : Type :=
| Ok (a : A)
| Raise (e : PyExc).
Arguments Ok {A} a.
Arguments Raise {A} e.

Definition rbind {A B} (x : Result A) (k : A -> Result B) : Result B :=
  match x with
  | Ok a => k a
  | Raise e => Raise e
  end.

Declare Scope result_scope.
Delimit Scope result_scope with result.
Notation "x <- e ;; k" := (rbind e (fun x => k))
  (at level 100, e at next level, right associativity) : result_scope.
Local Open Scope result_scope.

Definition is_ok {A} (x : Result A) : bool :=
  match x with Ok _ => true | Raise _ => false end.

(** [hash(v)]: lists and objects are unhashable and raise [TypeError] when
    used as a key.  Every [nan] is the one key [KNaN] here, where Python
    keeps two [nan] objects apart as two keys. *)
Definition hash_key (v : PyVal) : Result PyKey :=
  match v with
  | VNone => Ok KNone
  | VBool b => Ok (KInt (if b then 1 else 0))
  | VInt z => Ok (KInt z)
  | VNaN => Ok KNaN
  | VStr s => Ok (KStr s)
  | VList _ | VDict _ => Raise TypeError
  end.

Definition key_value (k : PyKey) : PyVal :=
  match k with
  | KNone => VNone
  | KInt z => VInt z
  | KNaN => VNaN
  | KStr s => VStr s
  end.

(** ** Dictionaries in insertion order *)

Section Dict.
Context {K V : Type} `{EqDecision K}.

Fixpoint dict_get (d : list (K * V)) (k : K) : option V :=
  match d with
  | [] => None
  | (k', v) :: d' => if decide (k' = k) then Some v else dict_get d' k
  end.

(** [d[k] = v]: an existing key keeps its place, a new key goes last. *)
Fixpoint dict_set (d : list (K * V)) (k : K) (v : V) : list (K * V) :=
  match d with
  | [] => [(k, v)]
  | (k', v') :: d' =>
      if decide (k' = k) then (k', v) :: d' else (k', v') :: dict_set d' k v
  end.

(** [d.pop(k)]: the value and the dictionary without the key. *)
Fixpoint dict_pop (d : list (K * V)) (k : K) : option (V * list (K * V)) :=
  match d with
  | [] => None
  | (k', v) :: d' =>
      if decide (k' = k) then Some (v, d')
      else match dict_pop d' k with
           | Some (x, r) => Some (x, (k', v) :: r)
           | None => None
           end
  end.

(** [d.update(e)] *)
Definition dict_update (d e : list (K * V)) : list (K * V) :=
  fold_left (fun acc kv => dict_set acc (fst kv) (snd kv)) e d.

Definition dict_keys (d : list (K * V)) : list K := d.*1.
End Dict.

(** [d.get(prop)] on an object: the value, or [None]. *)
Definition py_get (d : list (string * PyVal)) (prop : string) : PyVal :=
  match dict_get d prop with
  | Some v => v
  | None => VNone
  end.

(** [functools.reduce(f, xs, init)] *)
Fixpoint reduce {A B} (f : A -> B -> Result A) (xs : list B) (init : A)
  : Result A :=
  match xs with
  | [] => Ok init
  | x :: xs' => a <- f init x ;; reduce f xs' a
  end.

(** ** The array-to-map reducer *)

(** The accumulator: a [dict] keyed by whatever the records hold under the key
    property.  [array_to_dict_reducer] (gluestick.py, lines 239-259) returns
    the inner function [reducer]; here it is the function of the two property
    names, the accumulator and the current value.  The Python function
    updates the accumulator it was given and returns it; the fold below only
    ever sees the returned one. *)
Definition Acc : Type := list (PyKey * PyVal).

Definition array_to_dict_reducer (key_prop value_prop : string)
  (accumulator : Acc) (current_value : PyVal) : Result Acc :=
  match current_value with
  | VDict d =>
      let key := py_get d key_prop in
      let current_value := py_get d value_prop in
      k <- hash_key key ;;
      Ok (dict_set accumulator k current_value)
  | _ => Raise AttributeError
  end.

(** ** Tables *)

(** A column read out of a table ([pandas.Series]): its name, the row labels
    and the values. *)
Record Series : Type := {
  s_name : option PyKey;
  s_index : list PyKey;
  s_values : list PyVal
}.

(** A table ([pandas.DataFrame]): the row labels, and the columns in order,
    each a label with its values.  pandas lets labels repeat, both for rows
    and for columns. *)
Record DataFrame : Type := {
  df_index : list PyKey;
  df_columns : list (PyKey * list PyVal)
}.

Definition labels (d : DataFrame) : list PyKey := (df_columns d).*1.

(** All columns have one value per row. *)
Definition rectangular (d : DataFrame) : Prop :=
  Forall (fun col => length col.2 = length (df_index d)) (df_columns d).

Definition columns_named (c : PyKey) (d : DataFrame)
  : list (PyKey * list PyVal) :=
  filter (fun col => col.1 = c) (df_columns d).

(** The value at row position [i] of the column labelled [c] (of the first
    one, should several columns carry the label). *)
Definition cell (d : DataFrame) (c : PyKey) (i : nat) : option PyVal :=
  match columns_named c d with
  | col :: _ => col.2 !! i
  | [] => None
  end.

(** The elements in order of first appearance, each once
    ([Index.unique]). *)
Fixpoint unique (l : list PyKey) : list PyKey :=
  match l with
  | [] => []
  | x :: l' => x :: filter (fun y => y <> x) (unique l')
  end.

(** [df[c]] for one label.  [KeyError] when no column carries it.  When
    several columns carry it pandas hands back a sub-table, which the
    functions below would go on to treat as a column: that path is outside
    this development and is marked [Unsupported]. *)
Definition frame_getitem (d : DataFrame) (c : PyKey) : Result Series :=
  match columns_named c d with
  | [] => Raise KeyError
  | [col] =>
      Ok {| s_name := Some c; s_index := df_index d; s_values := col.2 |}
  | _ => Raise Unsupported
  end.

(** [df[cs]] for a list of labels: [KeyError] when a label is carried by no
    column; otherwise, for each listed label in turn, every column that
    carries it. *)
Definition frame_select (d : DataFrame) (cs : list PyKey)
  : Result DataFrame :=
  if forallb (fun c => bool_decide (c ∈ labels d)) cs
  then Ok {| df_index := df_index d;
             df_columns := cs ≫= (fun c => columns_named c d) |}
  else Raise KeyError.

(** [df[c] = s] for a column [s] read from the same table (same row labels,
    so pandas assigns by position): the columns labelled [c] take the new
    values in place; a new label is appended. *)
Definition frame_setitem (d : DataFrame) (c : PyKey) (s : Series)
  : DataFrame :=
  {| df_index := df_index d;
     df_columns :=
       if bool_decide (c ∈ labels d)
       then (fun col => if decide (col.1 = c) then (c, s_values s) else col)
              <$> df_columns d
       else df_columns d ++ [(c, s_values s)] |}.

(** [df.drop(c, 1)]: [KeyError] when no column carries the label; otherwise
    a table without the columns that carry it. *)
Definition frame_drop (d : DataFrame) (c : PyKey) : Result DataFrame :=
  if bool_decide (c ∈ labels d)
  then Ok {| df_index := df_index d;
             df_columns := filter (fun col => col.1 <> c) (df_columns d) |}
  else Raise KeyError.

Fixpoint mapM {A B} (f : A -> Result B) (xs : list A) : Result (list B) :=
  match xs with
  | [] => Ok []
  | x :: xs' => y <- f x ;; ys <- mapM f xs' ;; Ok (y :: ys)
  end.

(** [s.apply(f)] for an [f] that returns plain values.  The results are
    kept as [f] returns them: the way pandas goes on to store the column
    (integers next to a missing value as floats, "no value" next to
    numbers as [nan]) is not represented. *)
Definition series_apply (f : PyVal -> Result PyVal) (s : Series)
  : Result Series :=
  vs <- mapM f (s_values s) ;;
  Ok {| s_name := s_name s; s_index := s_index s; s_values := vs |}.

(** What [s.apply(f)] hands back for an [f] that returns a [pandas.Series]
    per cell: a table, or, on a column without rows, an empty column that
    keeps the name. *)
Inductive Applied : Type :=
| AppliedFrame (d : DataFrame)
| AppliedSeries (s : Series).

(** A [pandas.Series] built per cell: labels with their values. *)
Definition Fields : Type := list (PyKey * PyVal).

Definition record_field (c : PyKey) (r : Fields) : PyVal :=
  match dict_get r c with
  | Some v => v
  | None => VNaN
  end.

(** [s.apply(f)] with [f] returning a [pandas.Series]: one row per cell; the
    columns are the labels of all the records in order of first appearance;
    a row has [nan] where its record lacks the label.  The values are kept
    as the records hold them, without the storage pandas infers for each
    column. *)
Definition series_apply_records (f : PyVal -> Result Fields) (s : Series)
  : Result Applied :=
  rows <- mapM f (s_values s) ;;
  match rows with
  | [] => Ok (AppliedSeries
                {| s_name := s_name s; s_index := s_index s; s_values := [] |})
  | _ :: _ =>
      Ok (AppliedFrame
            {| df_index := s_index s;
               df_columns :=
                 (fun c => (c, record_field c <$> rows))
                   <$> unique (concat (dict_keys <$> rows)) |})
  end.

(** A column as a one-column table; an unnamed column is labelled [0]. *)
Definition series_to_frame (s : Series) : DataFrame :=
  {| df_index := s_index s;
     df_columns := [(match s_name s with Some c => c | None => KInt 0 end,
                     s_values s)] |}.

Fixpoint positions_from (n : nat) (lab : PyKey) (l : list PyKey)
  : list nat :=
  match l with
  | [] => []
  | x :: l' =>
      if decide (x = lab) then n :: positions_from (S n) lab l'
      else positions_from (S n) lab l'
  end.

(** The row pairing of a left join on the row labels: each left row with
    every right row of the same label, or with none.  The left rows stay in
    their order, which is what pandas does on pairwise distinct row labels
    (on repeated ones it groups the rows by label). *)
Definition join_indexer (li ri : list PyKey) : list (nat * option nat) :=
  concat (imap (fun i lab =>
                  match positions_from 0 lab ri with
                  | [] => [(i, None)]
                  | js => (fun j => (i, Some j)) <$> js
                  end) li).

Definition take_opt (ixs : list (option nat)) (vs : list PyVal)
  : list PyVal :=
  (fun oi => match oi with
             | Some i => default VNaN (vs !! i)
             | None => VNaN
             end) <$> ixs.

(** [left.join(right)]: [ValueError] when a label is a column of both;
    otherwise the left join on the row labels, left columns first. *)
Definition frame_join (l r : DataFrame) : Result DataFrame :=
  if bool_decide (Exists (fun c => c ∈ labels r) (labels l))
  then Raise ValueError
  else
    let ixs := join_indexer (df_index l) (df_index r) in
    Ok {| df_index :=
            omap (fun p => df_index l !! p.1) ixs;
          df_columns :=
            ((fun col => (col.1, take_opt ((Some ∘ fst) <$> ixs) col.2))
               <$> df_columns l)
            ++ ((fun col => (col.1, take_opt (snd <$> ixs) col.2))
                  <$> df_columns r) |}.

(** [left.join(other)] for what [apply] handed back; pandas refuses a column
    without a name. *)
Definition frame_join_applied (l : DataFrame) (a : Applied)
  : Result DataFrame :=
  match a with
  | AppliedFrame r => frame_join l r
  | AppliedSeries s =>
      match s_name s with
      | Some _ => frame_join l (series_to_frame s)
      | None => Raise ValueError
      end
  end.

(** [pd.concat([a, b], axis=1)] for two tables over the same row labels:
    the columns of both, side by side. *)
Definition frame_concat (a b : DataFrame) : DataFrame :=
  {| df_index := df_index a; df_columns := df_columns a ++ df_columns b |}.

(** [Series.explode] on one cell: an array gives its elements, an object its
    keys, an empty one a single [nan]; any other value stays as it is. *)
Definition explode_cell (v : PyVal) : list PyVal :=
  match v with
  | VList [] => [VNaN]
  | VList xs => xs
  | VDict [] => [VNaN]
  | VDict kvs => (fun kv => VStr kv.1) <$> kvs
  | _ => [v]
  end.

(** Each element repeated as many times as its row explodes into. *)
Definition repeat_rows {A} (counts : list nat) (xs : list A) : list A :=
  concat (zip_with (fun n x => replicate n x) counts xs).

(** [df.explode(c)]: [ValueError] when column labels repeat, [KeyError] when
    [c] is no column; otherwise one row per element of the cell in [c], the
    other cells and the row label repeated. *)
Definition frame_explode (d : DataFrame) (c : PyKey) : Result DataFrame :=
  if bool_decide (NoDup (labels d)) then
    s <- frame_getitem d c ;;
    let counts := (fun v => length (explode_cell v)) <$> s_values s in
    Ok {| df_index := repeat_rows counts (df_index d);
          df_columns :=
            (fun col =>
               if decide (col.1 = c)
               then (col.1, concat (explode_cell <$> col.2))
               else (col.1, repeat_rows counts col.2))
              <$> df_columns d |}
  else Raise ValueError.

(** [str(label)] *)
Definition label_str (k : PyKey) : string :=
  match k with
  | KNone => "None"
  | KInt z => NilZero.string_of_int (Z.to_int z)
  | KNaN => "nan"
  | KStr s => s
  end.

(** [add_prefix(p)]: on a table it prefixes the column labels, on a column
    its row labels. *)
Definition add_prefix (p : string) (a : Applied) : Applied :=
  match a with
  | AppliedFrame d =>
      AppliedFrame
        {| df_index := df_index d;
           df_columns :=
             (fun col => (KStr (p ++ label_str col.1), col.2))
               <$> df_columns d |}
  | AppliedSeries s =>
      AppliedSeries
        {| s_name := s_name s;
           s_index := (fun l => KStr (p ++ label_str l)) <$> s_index s;
           s_values := s_values s |}
  end.

Definition applied_frame (a : Applied) : DataFrame :=
  match a with
  | AppliedFrame d => d
  | AppliedSeries s => series_to_frame s
  end.

(** [df.rename(columns=m)]: a label that is a key of [m] is replaced. *)
Definition frame_rename (d : DataFrame) (m : list (PyKey * PyKey))
  : DataFrame :=
  {| df_index := df_index d;
     df_columns :=
       (fun col => (match dict_get m col.1 with
                    | Some c' => c'
                    | None => col.1
                    end, col.2)) <$> df_columns d |}.

(** [a.intersection(b)] on two [pandas.Index]: the elements of [a] that are
    in [b], each once, in the order of [a]. *)
Definition index_intersection (a b : list PyKey) : list PyKey :=
  filter (fun k => k ∈ b) (unique a).

(** [pd.Series(v)]: an object gives its fields; an array its elements under
    their positions; any other value one entry under [0]. *)
Definition pd_series (v : PyVal) : Fields :=
  match v with
  | VDict kvs => (fun kv => (KStr kv.1, kv.2)) <$> kvs
  | VList xs => imap (fun i x => (KInt (Z.of_nat i), x)) xs
  | _ => [(KInt 0, v)]
  end.

(** ** The store of tables *)

(** Tables are Python objects: the caller and the callee hold references to
    the same table.  The store holds the tables by reference; a function is
    a store transformer that may raise, and what it wrote before raising
    stays written.  The tables the caller can reach have a place in the
    store: those it passes in and the one a call returns.  The tables a call
    builds on the way and lets go are plain values. *)
Abbreviation ref := nat (only parsing).
Abbreviation Store := (list DataFrame) (only parsing).
Definition M (A : Type) : Type := Store -> Store * Result A.

Definition st_ret {A} (a : A) : M A := fun h => (h, Ok a).

Definition st_bind {A B} (m : M A) (k : A -> M B) : M B :=
  fun h =>
    match m h with
    | (h', Ok a) => k a h'
    | (h', Raise e) => (h', Raise e)
    end.

Declare Scope store_scope.
Delimit Scope store_scope with store.
Notation "x <~ e ;; k" := (st_bind e (fun x => k))
  (at level 100, e at next level, right associativity) : store_scope.
Local Open Scope store_scope.

Definition lift {A} (x : Result A) : M A := fun h => (h, x).

(** Reading through a reference.  A reference held by Python code always
    points to an object; a dangling one is marked [Unsupported]. *)
Definition deref (r : ref) : M DataFrame :=
  fun h =>
    match h !! r with
    | Some d => (h, Ok d)
    | None => (h, Raise Unsupported)
    end.

(** A new object. *)
Definition alloc (d : DataFrame) : M ref :=
  fun h => (h ++ [d], Ok (length h)).

(** [df[c]] *)
Definition df_getitem (df : ref) (c : PyKey) : M Series :=
  d <~ deref df ;; lift (frame_getitem d c).

(** [df[c] = s]: writes into the object [df] refers to. *)
Definition df_setitem (df : ref) (c : PyKey) (s : Series) : M unit :=
  d <~ deref df ;;
  fun h => (<[df := frame_setitem d c s]> h, Ok tt).

(** [df.drop(c, 1)]: a new table. *)
Definition df_drop (df : ref) (c : PyKey) : M ref :=
  d <~ deref df ;; d' <~ lift (frame_drop d c) ;; alloc d'.

(** [df[cs]]: a new table. *)
Definition df_getitem_list (df : ref) (cs : list PyKey) : M ref :=
  d <~ deref df ;; d' <~ lift (frame_select d cs) ;; alloc d'.

(** ** The transforms *)

Inductive TargetColumns : Type :=
| TNone
| TList (l : list PyKey)
| TDict (m : list (PyKey * PyKey))
| TOther.

Record ColConfig : Type := {
  cols_key_prop : PyKey;
  cols_value_prop : PyKey;
  look_up_key_prop : string;
  look_up_value_prop : string
}.

Definition default_col_config : ColConfig :=
  {| cols_key_prop := KStr "Name";
     cols_value_prop := KStr "Value";
     look_up_key_prop := "name";
     look_up_value_prop := "value" |}.

Definition Reducer : Type := Acc -> PyVal -> Result Acc.

Section Transforms.
(** [ast.literal_eval]: text to value, or the exception it raises. *)
Variable literal_eval : string -> Result PyVal.
(** [pandas.io.json._normalize.nested_to_record(y, sep='.', max_level=n)]:
    the flattened object, or the exception it raises. *)
Variable nested_to_record : PyVal -> option Z -> Result PyVal.

(** *** Tuple expander (gluestick.py, lines 60-97) *)

Definition get_value (y : PyVal) (prop : string) : Result PyVal :=
  value <- match y with
           | VStr s => literal_eval s
           | _ => Ok y
           end ;;
  match value with
  | VDict d => Ok (py_get d prop)
  | VList xs =>
      match xs with
      | [] => Raise IndexError
      | VDict d :: _ => Ok (py_get d prop)
      | _ :: _ => Raise AttributeError
      end
  | _ => Ok VNone
  end.

Definition json_tuple_to_cols (df : ref) (column_name : PyKey)
  (col_config : ColConfig) : M ref :=
  s <~ df_getitem df column_name ;;
  ks <~ lift (series_apply
                (fun y => get_value y (look_up_key_prop col_config)) s) ;;
  _ <~ df_setitem df (cols_key_prop col_config) ks ;;
  s <~ df_getitem df column_name ;;
  vs <~ lift (series_apply
                (fun y => get_value y (look_up_value_prop col_config)) s) ;;
  _ <~ df_setitem df (cols_value_prop col_config) vs ;;
  df_drop df column_name.

(** *** Column renamer (gluestick.py, lines 100-137) *)

Definition rename (df : ref) (target_columns : TargetColumns) : M ref :=
  match target_columns with
  | TList l => df_getitem_list df l
  | TDict m =>
      d <~ deref df ;;
      let idx1 := dict_keys m in
      let idx2 := labels d in
      let target_column_names := index_intersection idx1 idx2 in
      sel <~ lift (frame_select d target_column_names) ;;
      alloc (frame_rename sel m)
  | TNone | TOther => st_ret df
  end.

(** *** Row exploder (gluestick.py, lines 140-183) *)

Definition flatten (max_level : option Z) (y : PyVal) : Result Fields :=
  y <- match y with
       | VStr s => literal_eval s
       | _ => Ok y
       end ;;
  r <- nested_to_record y max_level ;;
  Ok (pd_series r).

Definition explode_json_to_rows (df : ref) (column_name : PyKey)
  (max_level : option Z) : M ref :=
  d <~ deref df ;;
  source_df <~ lift (frame_explode d column_name) ;;
  s <~ lift (frame_getitem source_df column_name) ;;
  flat <~ lift (series_apply_records (flatten max_level) s) ;;
  let final_df :=
    frame_concat source_df
      (applied_frame (add_prefix (label_str column_name ++ ".") flat)) in
  (* final_df.drop(column_name, 1): the table it builds is not kept *)
  _ <~ lift (frame_drop final_df column_name) ;;
  alloc final_df.

(** *** Column exploder (gluestick.py, lines 186-236) *)

Definition json_to_series (reducer : Reducer) (y : PyVal)
  : Result Fields :=
  value <- match y with
           | VStr s => literal_eval s
           | _ => Ok y
           end ;;
  match value with
  | VDict _ => reduce reducer [value] []
  | VList xs => reduce reducer xs []
  | _ => Ok []
  end.

Definition explode_json_to_cols (df : ref) (column_name : PyKey)
  (reducer : option Reducer) : M ref :=
  let reducer := default (array_to_dict_reducer "Name" "Value") reducer in
  d <~ deref df ;;
  let source_columns := labels d in
  child_df <~ lift (frame_select d source_columns) ;;
  dropped <~ lift (frame_drop child_df column_name) ;;
  s <~ lift (frame_getitem child_df column_name) ;;
  new_cols <~ lift (series_apply_records (json_to_series reducer) s) ;;
  joined <~ lift (frame_join_applied dropped new_cols) ;;
  alloc joined.
End Transforms.

(** ** Text operations of Python *)

(** [s.endswith(suffix)] *)
Fixpoint endswith (s suffix : string) : bool :=
  if String.eqb s suffix then true
  else match s with
       | EmptyString => false
       | String _ s' => endswith s' suffix
       end.

(** [sub in s] *)
Fixpoint contains (sub s : string) : bool :=
  if String.prefix sub s then true
  else match s with
       | EmptyString => false
       | String _ s' => contains sub s'
       end.

(** [s.split(sep)] for a non-empty [sep], scanning from the left: [cur] is
    the piece being read, [skip] counts the characters of a separator still
    to pass. *)
Fixpoint split_go (sep : string) (skip : nat) (cur : string) (s : string)
  : list string :=
  match s with
  | EmptyString => [cur]
  | String c s' =>
      match skip with
      | S n => split_go sep n cur s'
      | O =>
          if String.prefix sep s
          then cur :: split_go sep (String.length sep - 1) EmptyString s'
          else split_go sep 0 (cur ++ String c EmptyString) s'
      end
  end.

Definition split (s sep : string) : list string := split_go sep 0 "" s.

(** [os.path.join(a, b)] on POSIX *)
Definition path_join (a b : string) : string :=
  if String.prefix "/" b then b
  else if String.eqb a "" || endswith a "/" then a ++ b
  else a ++ "/" ++ b.

(** ** Folder loader (gluestick.py, lines 8-57) *)

Section Loader.
(** The file system as [os.path.isdir], [os.listdir] and [os.path.isfile]
    show it, and [pandas.read_csv] with its [index_col] and [converters]
    arguments. *)
Variable isdir : string -> bool.
Variable listdir : string -> list string.
Variable isfile : string -> bool.
Variables IndexCol Converters : Type.
Variable read_csv :
  string -> option IndexCol -> option Converters -> Result DataFrame.

Definition entity_type_of (file : string) : string :=
  let split_path := split file "/" in
  let entity_type := hd "" (split (List.last split_path "") ".csv") in
  let entity_type :=
    if contains "_" entity_type then hd "" (split entity_type "_")
    else entity_type in
  let entity_type :=
    if contains "-" entity_type then hd "" (split entity_type "-")
    else entity_type in
  entity_type.

Fixpoint load_files (converters : gmap string Converters)
  (index_cols : gmap string IndexCol) (all_files : list string)
  (results : gmap string DataFrame) : Result (gmap string DataFrame) :=
  match all_files with
  | [] => Ok results
  | file :: rest =>
      let entity_type := entity_type_of file in
      match results !! entity_type with
      | Some _ => load_files converters index_cols rest results
      | None =>
          t <- read_csv file (index_cols !! entity_type)
                 (converters !! entity_type) ;;
          load_files converters index_cols rest (<[entity_type := t]> results)
      end
  end.

Definition read_csv_folder (path : string)
  (converters : gmap string Converters) (index_cols : gmap string IndexCol)
  : Result (gmap string DataFrame) :=
  let is_directory := isdir path in
  let all_files :=
    if is_directory
    then path_join path <$>
           filter (fun entry =>
                     isfile (path_join path entry)
                     && endswith (path_join path entry) ".csv" = true)
             (listdir path)
    else [path] in
  load_files converters index_cols all_files ∅.
End Loader.

(** ** Instances of the library parameters for worked inputs *)

(** [ast.literal_eval] on the texts of a given table of literals; any other
    text is refused. *)
Definition literal_eval_of (known : list (string * PyVal)) (s : string)
  : Result PyVal :=
  match dict_get known s with
  | Some v => Ok v
  | None => Raise ValueError
  end.

Definition is_dict (v : PyVal) : bool :=
  match v with VDict _ => true | _ => false end.

(** [nested_to_record] where there is nothing to flatten: an object none of
    whose fields is itself an object comes back as it is, and so does an
    array of such objects.  A value that cannot be iterated raises
    [TypeError], an element without [items] raises [AttributeError].  Values
    with nested objects are left out ([Unsupported]). *)
Definition nested_to_record_flat (ds : PyVal) (max_level : option Z)
  : Result PyVal :=
  let flat kvs :=
    forallb (fun kv : string * PyVal => negb (is_dict kv.2)) kvs in
  match ds with
  | VDict kvs => if flat kvs then Ok ds else Raise Unsupported
  | VList xs =>
      _ <- mapM (fun x => match x with
                          | VDict kvs =>
                              if flat kvs then Ok x else Raise Unsupported
                          | _ => Raise AttributeError
                          end) xs ;;
      Ok ds
  | VStr EmptyString => Ok (VList [])
  | VStr _ => Raise AttributeError
  | VNone | VBool _ | VInt _ | VNaN => Raise TypeError
  end.

(** ** Notions used to state the properties *)

(** The value [get_value] dispatches on: the cell, decoded when it is
    text. *)
Definition decoded (literal_eval : string -> Result PyVal) (y : PyVal)
  : Result PyVal :=
  match y with
  | VStr s => literal_eval s
  | _ => Ok y
  end.

Definition is_list (v : PyVal) : bool :=
  match v with VList _ => true | _ => false end.

(** The reducer the column exploder uses when none is given. *)
Definition default_reducer : Reducer := array_to_dict_reducer "Name" "Value".

(** No call changes a table that was in the store before it: the store
    after the call has the same table under every reference the store had
    before. *)
Definition preserves_tables {A} (m : M A) : Prop :=
  forall (h : Store) (r : ref) (d : DataFrame),
    h !! r = Some d -> (m h).1 !! r = Some d.

(** A computation that only adds tables at the end of the store. *)
Definition allocates_only {A} (m : M A) : Prop :=
  forall h : Store, h `prefix_of` (m h).1.

(** A computation that leaves every table but the one behind [t] as it
    was. *)
Definition changes_only {A} (t : ref) (m : M A) : Prop :=
  forall (h : Store) (r : ref) (x : DataFrame),
    r <> t -> h !! r = Some x -> (m h).1 !! r = Some x.

(** The files the folder loader goes through, in their order: the entries
    of the folder that are regular files with a name ending in [.csv], or
    the path itself when it is no folder ([all_files] of gluestick.py,
    lines 30-39). *)
Definition all_files (isdir : string -> bool)
  (listdir : string -> list string) (isfile : string -> bool)
  (path : string) : list string :=
  if isdir path
  then path_join path <$>
         filter (fun entry =>
                   isfile (path_join path entry)
                   && endswith (path_join path entry) ".csv" = true)
           (listdir path)
  else [path].

(** The values a column of pandas is sure to hold as they are, whatever
    else the column holds: text, arrays and objects, and the integers a
    float represents exactly.  (pandas infers how to store a column from
    all its values: integers next to a missing value become floats, and
    "no value" next to numbers becomes [nan].) *)
Definition stored_exactly (v : PyVal) : bool :=
  match v with
  | VStr _ | VList _ | VDict _ => true
  | VInt z => bool_decide (Z.abs z <= 2 ^ 53)
  | VNone | VBool _ | VNaN => false
  end.

(** The two ways a cell has no value. *)
Definition is_missing (v : PyVal) : bool :=
  match v with
  | VNone | VNaN => true
  | _ => false
  end.

(** What is known of the cell [c] of a column into which pandas has put the
    value [v]: there is a cell; it holds [v] as it is when [v] is stored
    exactly; and it is missing when [v] is. *)
Definition stored_as (v : PyVal) (c : option PyVal) : Prop :=
  exists w, c = Some w
    /\ (stored_exactly v = true -> w = v)
    /\ (is_missing v = true -> is_missing w = true).

(** ** Worked inputs *)

(** An invoice with two lines, and what the row exploder makes of it. *)
Definition invoices : DataFrame :=
  {| df_index := [KInt 1037];
     df_columns :=
       [(KStr "DocNumber", [VStr "1037"]);
        (KStr "Line",
         [VList [VDict [("Id", VStr "1"); ("Amount", VInt 275)];
                 VDict [("Id", VStr "2"); ("Amount", VInt 12)]]])] |}.

Definition invoices_exploded : DataFrame :=
  {| df_index := [KInt 1037; KInt 1037];
     df_columns :=
       [(KStr "DocNumber", [VStr "1037"; VStr "1037"]);
        (KStr "Line",
         [VDict [("Id", VStr "1"); ("Amount", VInt 275)];
          VDict [("Id", VStr "2"); ("Amount", VInt 12)]]);
        (KStr "Line.Id", [VStr "1"; VStr "2"]);
        (KStr "Line.Amount", [VInt 275; VInt 12])] |}.

(** The tuple of the tuple expander's documentation, a table that holds it,
    that table after the call has written into it, and the table the call
    returns. *)
Definition discount : PyVal :=
  VDict [("name", VStr "Discount"); ("value", VInt 10)].

Definition discounts : DataFrame :=
  {| df_index := [KInt 0];
     df_columns := [(KStr "Doc", [VStr "A"]); (KStr "Ref", [discount])] |}.

Definition discounts_written : DataFrame :=
  {| df_index := [KInt 0];
     df_columns :=
       [(KStr "Doc", [VStr "A"]); (KStr "Ref", [discount]);
        (KStr "Name", [VStr "Discount"]); (KStr "Value", [VInt 10])] |}.

Definition discounts_expanded : DataFrame :=
  {| df_index := [KInt 0];
     df_columns :=
       [(KStr "Doc", [VStr "A"]);
        (KStr "Name", [VStr "Discount"]); (KStr "Value", [VInt 10])] |}.

(** A table whose tuple column is itself named [Value]. *)
Definition value_tuples : DataFrame :=
  {| df_index := [KInt 0]; df_columns := [(KStr "Value", [discount])] |}.

(** A mapping with a key that names no column. *)
Definition ref_mapping : list (PyKey * PyKey) :=
  [(KStr "Ref", KStr "Reference"); (KStr "Total", KStr "Amount");
   (KStr "Doc", KStr "Document")].

(** The array of name/value pairs of the column exploder's documentation. *)
Definition first_last : PyVal :=
  VList [VDict [("Name", VStr "First"); ("Value", VStr "John")];
         VDict [("Name", VStr "Last"); ("Value", VStr "Smith")]].

Definition customers : DataFrame :=
  {| df_index := [KInt 0; KInt 1];
     df_columns :=
       [(KStr "Doc", [VStr "A"; VStr "B"]);
        (KStr "CustomField",
         [first_last; VDict [("Name", VStr "Age"); ("Value", VInt 3)]])] |}.

Definition customers_exploded : DataFrame :=
  {| df_index := [KInt 0; KInt 1];
     df_columns :=
       [(KStr "Doc", [VStr "A"; VStr "B"]);
        (KStr "First", [VStr "John"; VNaN]);
        (KStr "Last", [VStr "Smith"; VNaN]);
        (KStr "Age", [VNaN; VInt 3])] |}.

(** A table that already has a column named [First]. *)
Definition customers_with_first : DataFrame :=
  {| df_index := [KInt 0];
     df_columns :=
       [(KStr "First", [VStr "x"]); (KStr "CustomField", [first_last])] |}.


(** A folder [data] with the two account files; the second one does not
    parse. *)
Definition accounts_table : DataFrame :=
  {| df_index := [KInt 0]; df_columns := [(KStr "Id", [VInt 1])] |}.

Definition data_isdir (path : string) : bool := String.eqb path "data".

Definition data_listdir (path : string) : list string :=
  ["Account-1.csv"; "Account-2.csv"].

Definition data_isfile (path : string) : bool := true.

Definition data_read_csv (file : string) (index_col : option string)
  (converters : option unit) : Result DataFrame :=
  if String.eqb file "data/Account-1.csv" then Ok accounts_table
  else Raise ValueError.

(** A table in which the label [Id] repeats. *)
Definition repeated_ids : DataFrame :=
  {| df_index := [KInt 0];
     df_columns := [(KStr "Line", [VList []]); (KStr "Id", [VInt 1]);
                    (KStr "Id", [VInt 2])] |}.


(** A table of invoice lines whose second row has no line, and the same
    table without that row. *)
Definition lines_with_empty : DataFrame :=
  {| df_index := [KInt 0; KInt 1];
     df_columns :=
       [(KStr "Line", [VList [VDict [("Id", VStr "1")]]; VList []])] |}.

Definition lines_without_empty : DataFrame :=
  {| df_index := [KInt 0];
     df_columns := [(KStr "Line", [VList [VDict [("Id", VStr "1")]]])] |}.

(** A table in which the label [a] repeats, and a mapping that names [b]
    before [a]. *)
Definition repeated_a : DataFrame :=
  {| df_index := [KInt 0];
     df_columns := [(KStr "a", [VInt 1]); (KStr "b", [VInt 2]);
                    (KStr "a", [VInt 3])] |}.

Definition b_then_a : list (PyKey * PyKey) :=
  [(KStr "b", KStr "y"); (KStr "a", KStr "x")].

(** * Properties *)

(** ** Results and dictionaries *)

Lemma rbind_ok {A B} (x : Result A) (k : A -> Result B) (b : B) :
  rbind x k = Ok b -> exists a, x = Ok a /\ k a = Ok b.
Proof. destruct x as [a|e]; simpl; [eauto | discriminate]. Qed.

Lemma dict_set_twice {V} (d : list (PyKey * V)) k v v' :
  dict_set (dict_set d k v) k v' = dict_set d k v'.
Proof.
  induction d as [|[k0 v0] d IH]; simpl.
  - rewrite decide_True by done. done.
  - destruct (decide (k0 = k)) as [->|Hne]; simpl.
    + rewrite decide_True by done. done.
    + rewrite decide_False by done. by rewrite IH.
Qed.

Lemma dict_get_set_eq {V} (d : list (PyKey * V)) k v :
  dict_get (dict_set d k v) k = Some v.
Proof.
  induction d as [|[k0 v0] d IH]; simpl.
  - by rewrite decide_True.
  - destruct (decide (k0 = k)) as [->|Hne]; simpl.
    + by rewrite decide_True.
    + by rewrite decide_False.
Qed.

Lemma dict_get_set_ne {V} (d : list (PyKey * V)) k k' v :
  k <> k' -> dict_get (dict_set d k v) k' = dict_get d k'.
Proof.
  intros Hne. induction d as [|[k0 v0] d IH]; simpl.
  - by rewrite decide_False.
  - destruct (decide (k0 = k)) as [->|Hne0]; simpl.
    + by rewrite !decide_False.
    + destruct (decide (k0 = k')); done.
Qed.

(** ** The array-to-map reducer *)

Lemma reducer_non_object kp vp acc v :
  is_dict v = false -> array_to_dict_reducer kp vp acc v = Raise AttributeError.
Proof. by destruct v. Qed.

Lemma reduce_app {A B} (f : A -> B -> Result A) xs ys init :
  reduce f (xs ++ ys) init = (a <- reduce f xs init ;; reduce f ys a).
Proof.
  revert init. induction xs as [|x xs IH]; intros init; simpl; [done|].
  destruct (f init x); simpl; [apply IH | done].
Qed.

(** C8: the reducer built by [array_to_dict_reducer] raises on every element
    that is not an object, whatever the accumulator; folding the list
    ["not-a-dict"] from the empty accumulator raises that error; and a fold
    over any list that holds such an element does not return. *)
Theorem reducer_raises_on_non_object (key_prop value_prop : string) :
  (forall acc v, is_dict v = false ->
     array_to_dict_reducer key_prop value_prop acc v = Raise AttributeError)
  /\ reduce (array_to_dict_reducer key_prop value_prop)
       [VStr "not-a-dict"] [] = Raise AttributeError
  /\ (forall xs v ys init, is_dict v = false ->
        is_ok (reduce (array_to_dict_reducer key_prop value_prop)
                 (xs ++ v :: ys) init) = false).
Proof.
  split; [|split].
  - intros acc v Hv. by apply reducer_non_object.
  - reflexivity.
  - intros xs v ys init Hv. rewrite reduce_app.
    destruct (reduce _ xs init) as [a|e]; simpl; [|done].
    by rewrite reducer_non_object.
Qed.

Lemma reducer_raises_on_non_object_witness :
  array_to_dict_reducer "Name" "Value" [] (VStr "not-a-dict")
  = Raise AttributeError
  /\ is_ok (reduce (array_to_dict_reducer "Name" "Value")
              ([VDict [("Name", VStr "a")]] ++ VInt 3 :: []) []) = false.
Proof.
  destruct (reducer_raises_on_non_object "Name" "Value") as (H1 & _ & H3).
  split.
  - apply H1. reflexivity.
  - apply H3. reflexivity.
Defined.

Lemma reduce_missing_key kp vp (ds : list (list (string * PyVal))) d acc :
  Forall (fun d => dict_get d kp = None) (ds ++ [d]) ->
  reduce (array_to_dict_reducer kp vp) (VDict <$> (ds ++ [d])) acc
  = Ok (dict_set acc KNone (py_get d vp)).
Proof.
  revert acc. induction ds as [|d0 ds IH]; intros acc Hall; simpl.
  - apply Forall_cons in Hall as [Hd _].
    unfold py_get at 1. by rewrite Hd.
  - apply Forall_cons in Hall as [Hd0 Hall].
    unfold py_get at 1. rewrite Hd0. simpl.
    rewrite (IH _ Hall). by rewrite dict_set_twice.
Qed.

(** After a record without the key property, the accumulator holds the
    record's value under the absent key and what it held under every other
    key. *)
Lemma reducer_missing_key_lookup kp vp (acc : Acc) d :
  dict_get d kp = None ->
  exists acc',
    array_to_dict_reducer kp vp acc (VDict d) = Ok acc'
    /\ dict_get acc' KNone = Some (py_get d vp)
    /\ (forall k, k <> KNone -> dict_get acc' k = dict_get acc k).
Proof.
  intros Hk. exists (dict_set acc KNone (py_get d vp)). split; [|split].
  - simpl. unfold py_get at 1. by rewrite Hk.
  - apply dict_get_set_eq.
  - intros k Hne. by apply dict_get_set_ne.
Qed.

(** C10, as amended: a record that lacks the key property is stored under
    the absent key [None] and the reducer does not fail on it; several such
    records folded in a row leave the value of the last one under that key;
    a record that has the key property but lacks the value property is
    stored under its key with the value [None] when the key is hashable, and
    the reducer raises [TypeError] when the key is an array or an object. *)
Theorem reducer_missing_property (key_prop value_prop : string) :
  (forall acc d, dict_get d key_prop = None ->
     array_to_dict_reducer key_prop value_prop acc (VDict d)
     = Ok (dict_set acc KNone (py_get d value_prop)))
  /\ (forall acc ds d,
        Forall (fun d => dict_get d key_prop = None) (ds ++ [d]) ->
        reduce (array_to_dict_reducer key_prop value_prop)
          (VDict <$> (ds ++ [d])) acc
        = Ok (dict_set acc KNone (py_get d value_prop)))
  /\ (forall acc d key, dict_get d key_prop = Some key ->
        dict_get d value_prop = None ->
        array_to_dict_reducer key_prop value_prop acc (VDict d)
        = match hash_key key with
          | Ok k => Ok (dict_set acc k VNone)
          | Raise _ => Raise TypeError
          end).
Proof.
  split; [|split].
  - intros acc d Hk. simpl. unfold py_get at 1. by rewrite Hk.
  - intros acc ds d Hall. by apply reduce_missing_key.
  - intros acc d key Hk Hv. simpl. unfold py_get. rewrite Hk, Hv.
    by destruct key.
Qed.

Lemma reducer_missing_property_witness :
  array_to_dict_reducer "Name" "Value" [(KStr "First", VStr "John")]
    (VDict [("Value", VInt 3)])
  = Ok [(KStr "First", VStr "John"); (KNone, VInt 3)]
  /\ reduce (array_to_dict_reducer "Name" "Value")
       [VDict [("Value", VInt 3)]; VDict []] []
     = Ok [(KNone, VNone)]
  /\ array_to_dict_reducer "Name" "Value" [] (VDict [("Name", VStr "Age")])
     = Ok [(KStr "Age", VNone)].
Proof.
  destruct (reducer_missing_property "Name" "Value") as (H1 & H2 & H3).
  split; [|split].
  - apply (H1 [(KStr "First", VStr "John")] [("Value", VInt 3)]). reflexivity.
  - apply (H2 [] [[("Value", VInt 3)]] []).
    repeat constructor.
  - apply (H3 [] [("Name", VStr "Age")] (VStr "Age")); reflexivity.
Defined.

(** C10 as stated fails: a record that lacks the value property and whose
    key property holds an array makes the reducer raise; and a record that
    lacks the value property only is stored under its own key, not under
    the absent key. *)
Lemma reducer_missing_value_can_fail :
  dict_get [("Name", VList [VInt 1])] "Value" = None
  /\ array_to_dict_reducer "Name" "Value" []
       (VDict [("Name", VList [VInt 1])]) = Raise TypeError
  /\ array_to_dict_reducer "Name" "Value" []
       (VDict [("Name", VStr "Age")]) = Ok [(KStr "Age", VNone)].
Proof. repeat split. Qed.

(** ** The per-cell extraction rule *)

(** C3, as amended: [get_value] yields "no value" for a cell that, once
    decoded, is neither an object nor an array, and the property (or "no
    value") of an object or of the first element of an array when that is
    an object; it raises the decoder's own error when the text does not
    decode, [IndexError] on an empty array, and [AttributeError] on an array
    whose first element is not an object. *)
Theorem get_value_outcomes (literal_eval : string -> Result PyVal)
  (y : PyVal) (prop : string) :
  (forall v, decoded literal_eval y = Ok v ->
     is_dict v = false -> is_list v = false ->
     get_value literal_eval y prop = Ok VNone)
  /\ (forall d, decoded literal_eval y = Ok (VDict d) ->
        get_value literal_eval y prop = Ok (py_get d prop))
  /\ (forall d xs, decoded literal_eval y = Ok (VList (VDict d :: xs)) ->
        get_value literal_eval y prop = Ok (py_get d prop))
  /\ (forall e, decoded literal_eval y = Raise e ->
        get_value literal_eval y prop = Raise e)
  /\ (decoded literal_eval y = Ok (VList []) ->
        get_value literal_eval y prop = Raise IndexError)
  /\ (forall x xs, decoded literal_eval y = Ok (VList (x :: xs)) ->
        is_dict x = false ->
        get_value literal_eval y prop = Raise AttributeError).
Proof.
  unfold get_value. fold (decoded literal_eval y).
  repeat split.
  - intros v -> Hd Hl. by destruct v.
  - by intros d ->.
  - by intros d xs ->.
  - by intros e ->.
  - by intros ->.
  - intros x xs -> Hx. by destruct x.
Qed.

Lemma get_value_outcomes_witness :
  get_value (literal_eval_of [("7", VInt 7)]) (VStr "7") "name" = Ok VNone
  /\ get_value (literal_eval_of []) (VList [VInt 1]) "name"
     = Raise AttributeError.
Proof.
  split.
  - apply (get_value_outcomes (literal_eval_of [("7", VInt 7)]) (VStr "7")
             "name") with (v := VInt 7); reflexivity.
  - apply (get_value_outcomes (literal_eval_of []) (VList [VInt 1]) "name")
      with (x := VInt 1) (xs := []); reflexivity.
Defined.

(** C3 as stated fails: on an empty array [get_value] raises instead of
    yielding "no value", whatever the decoder. *)
Lemma get_value_empty_array_raises :
  get_value (literal_eval_of []) (VList []) "name" = Raise IndexError.
Proof. reflexivity. Qed.

(** ** The store *)

Lemma st_bind_ok {A B} (m : M A) (k : A -> M B) h h' b :
  st_bind m k h = (h', Ok b) ->
  exists a h1, m h = (h1, Ok a) /\ k a h1 = (h', Ok b).
Proof.
  unfold st_bind. destruct (m h) as [h1 [a|e]]; [eauto | discriminate].
Qed.

Lemma lift_ok {A} (x : Result A) h h' a :
  lift x h = (h', Ok a) -> h' = h /\ x = Ok a.
Proof. unfold lift. intros [= -> ->]. done. Qed.

Lemma deref_ok r h h' d :
  deref r h = (h', Ok d) -> h' = h /\ h !! r = Some d.
Proof.
  unfold deref. destruct (h !! r); [|discriminate]. intros [= -> ->]. done.
Qed.

Lemma alloc_ok d h h' r :
  alloc d h = (h', Ok r) -> h' = h ++ [d] /\ r = length h.
Proof. unfold alloc. intros [= <- <-]. done. Qed.

Lemma lookup_alloc (h : Store) d : (h ++ [d]) !! length h = Some d.
Proof. apply list_lookup_middle. done. Qed.

(** Stepping through a run that returned. *)
Ltac run_ok H :=
  repeat match type of H with
    | st_bind _ _ _ = (_, Ok _) =>
        let a := fresh "a" in
        let h1 := fresh "h" in
        let H1 := fresh "Hrun" in
        apply st_bind_ok in H as (a & h1 & H1 & H);
        first [ apply lift_ok in H1 as [-> H1]
              | apply deref_ok in H1 as [-> H1]
              | idtac ]
    end.

(** ** Row exploder *)

Lemma frame_drop_ok d c d' : frame_drop d c = Ok d' -> c ∈ labels d.
Proof.
  unfold frame_drop. case_bool_decide; [done | discriminate].
Qed.

(** Whenever the row exploder returns, the table it returns still has the
    source column: the drop at the end of the function builds a table that
    is not kept. *)
Theorem explode_json_to_rows_source_column literal_eval nested_to_record
  df column_name max_level h h' r :
  explode_json_to_rows literal_eval nested_to_record df column_name max_level h
  = (h', Ok r) ->
  exists out, h' !! r = Some out /\ column_name ∈ labels out.
Proof.
  unfold explode_json_to_rows. intros H. run_ok H.
  apply alloc_ok in H as [-> ->].
  eexists. split; [apply lookup_alloc|].
  by eapply frame_drop_ok.
Qed.

Lemma explode_json_to_rows_source_column_witness :
  exists out,
    [invoices; invoices_exploded] !! 1%nat = Some out
    /\ KStr "Line" ∈ labels out.
Proof.
  apply (explode_json_to_rows_source_column (literal_eval_of [])
           nested_to_record_flat 0%nat (KStr "Line") (Some 1) [invoices]
           [invoices; invoices_exploded] 1%nat).
  vm_compute. reflexivity.
Defined.

(** C1, the code against the claim: on a table with the columns [DocNumber]
    and [Line], the row exploder returns a table that still has the column
    [Line], next to the flattened columns [Line.Id] and [Line.Amount]. *)
Theorem explode_json_to_rows_keeps_source_column :
  explode_json_to_rows (literal_eval_of []) nested_to_record_flat
    0%nat (KStr "Line") (Some 1) [invoices]
  = ([invoices; invoices_exploded], Ok 1%nat)
  /\ bool_decide (KStr "Line" ∈ labels invoices_exploded) = true.
Proof. split; vm_compute; reflexivity. Qed.

(** ** Columns of a table under the pandas operations *)

Lemma mapM_lookup {A B} (f : A -> Result B) xs ys i x :
  mapM f xs = Ok ys -> xs !! i = Some x ->
  exists y, ys !! i = Some y /\ f x = Ok y.
Proof.
  revert ys i. induction xs as [|x0 xs IH]; intros ys i Hm Hi; [done|].
  simpl in Hm. apply rbind_ok in Hm as (y0 & Hy0 & Hm).
  apply rbind_ok in Hm as (ys0 & Hys0 & [= <-]).
  destruct i as [|i]; simpl in *.
  - injection Hi as ->. eauto.
  - eauto.
Qed.

Lemma mapM_length {A B} (f : A -> Result B) xs ys :
  mapM f xs = Ok ys -> length ys = length xs.
Proof.
  revert ys. induction xs as [|x0 xs IH]; intros ys Hm; simpl in Hm.
  - by injection Hm as <-.
  - apply rbind_ok in Hm as (y0 & Hy0 & Hm).
    apply rbind_ok in Hm as (ys0 & Hys0 & [= <-]).
    simpl. f_equal. eauto.
Qed.

Lemma columns_named_setitem_ne d c c' s :
  c' <> c -> columns_named c' (frame_setitem d c s) = columns_named c' d.
Proof.
  intros Hne. unfold columns_named, frame_setitem. simpl.
  case_bool_decide as Hin.
  - clear Hin. induction (df_columns d) as [|col cols IH]; [done|].
    rewrite fmap_cons, !filter_cons. rewrite IH.
    destruct (decide (col.1 = c)) as [Hc|Hc]; simpl.
    + rewrite decide_False by congruence.
      rewrite decide_False by congruence. done.
    + done.
  - rewrite filter_app, filter_cons, filter_nil. simpl.
    rewrite decide_False by congruence. by rewrite app_nil_r.
Qed.

Lemma columns_named_setitem_all d c s col :
  col ∈ columns_named c (frame_setitem d c s) -> col = (c, s_values s).
Proof.
  unfold columns_named, frame_setitem. simpl.
  rewrite list_elem_of_filter. intros [Hc Hin].
  case_bool_decide as Hl.
  - apply list_elem_of_fmap in Hin as (col0 & -> & Hin0).
    destruct (decide (col0.1 = c)) as [|Hne]; [done|].
    by destruct Hne.
  - apply elem_of_app in Hin as [Hin|Hin].
    + destruct Hl. unfold labels. apply list_elem_of_fmap. eauto.
    + by apply list_elem_of_singleton in Hin.
Qed.

Lemma columns_named_setitem_some d c s :
  columns_named c (frame_setitem d c s) <> [].
Proof.
  unfold columns_named, frame_setitem. simpl.
  case_bool_decide as Hl.
  - unfold labels in Hl. apply list_elem_of_fmap in Hl as (col & Hc & Hin).
    intros Hnil.
    assert (Hx : (c, s_values s) ∈
                   filter (fun col => col.1 = c)
                     ((fun col => if decide (col.1 = c)
                                  then (c, s_values s) else col)
                        <$> df_columns d)).
    { apply list_elem_of_filter. split; [done|].
      apply list_elem_of_fmap. exists col. split; [|done].
      by rewrite decide_True. }
    rewrite Hnil in Hx. by apply not_elem_of_nil in Hx.
  - rewrite filter_app, filter_cons, filter_nil. simpl.
    rewrite decide_True by done. intros Hnil.
    by apply app_eq_nil in Hnil as [_ ?].
Qed.

Lemma cell_setitem_eq d c s i :
  cell (frame_setitem d c s) c i = s_values s !! i.
Proof.
  unfold cell.
  pose proof (columns_named_setitem_some d c s) as Hsome.
  pose proof (columns_named_setitem_all d c s) as Hall.
  destruct (columns_named c (frame_setitem d c s)) as [|col rest]; [done|].
  rewrite (Hall col) by apply list_elem_of_here. done.
Qed.

Lemma cell_setitem_ne d c c' s i :
  c' <> c -> cell (frame_setitem d c s) c' i = cell d c' i.
Proof. intros Hne. unfold cell. by rewrite columns_named_setitem_ne. Qed.

Lemma labels_setitem d c s c' :
  c' ∈ labels d -> c' ∈ labels (frame_setitem d c s).
Proof.
  unfold labels, frame_setitem. simpl. intros Hin.
  case_bool_decide as Hl.
  - apply list_elem_of_fmap in Hin as (col & -> & Hin).
    apply list_elem_of_fmap.
    exists (if decide (col.1 = c) then (c, s_values s) else col).
    split; [|apply list_elem_of_fmap; eauto].
    by destruct (decide (col.1 = c)).
  - rewrite fmap_app. apply elem_of_app. by left.
Qed.

Lemma index_setitem d c s : df_index (frame_setitem d c s) = df_index d.
Proof. done. Qed.

Lemma frame_drop_inv d c d' :
  frame_drop d c = Ok d' ->
  c ∈ labels d /\ df_index d' = df_index d
  /\ df_columns d' = filter (fun col => col.1 <> c) (df_columns d).
Proof.
  unfold frame_drop. case_bool_decide; [|discriminate].
  by intros [= <-].
Qed.

Lemma labels_drop d c d' : frame_drop d c = Ok d' -> c ∉ labels d'.
Proof.
  intros (_ & _ & Hcols)%frame_drop_inv. unfold labels. rewrite Hcols.
  intros (col & Hc & Hin)%list_elem_of_fmap.
  apply list_elem_of_filter in Hin as [Hne _]. by destruct Hne.
Qed.

Lemma columns_named_drop_ne d c c' d' :
  frame_drop d c = Ok d' -> c' <> c -> columns_named c' d' = columns_named c' d.
Proof.
  intros (_ & _ & Hcols)%frame_drop_inv Hne. unfold columns_named.
  rewrite Hcols, list_filter_filter. apply list_filter_iff.
  intros col. split; [tauto|]. intros Hc. split; [done|congruence].
Qed.

Lemma cell_drop_ne d c c' d' i :
  frame_drop d c = Ok d' -> c' <> c -> cell d' c' i = cell d c' i.
Proof.
  intros Hd Hne. unfold cell. by rewrite (columns_named_drop_ne d c c' d').
Qed.

Lemma frame_getitem_inv d c s :
  frame_getitem d c = Ok s ->
  exists col, columns_named c d = [col]
    /\ s = {| s_name := Some c; s_index := df_index d; s_values := col.2 |}.
Proof.
  unfold frame_getitem.
  destruct (columns_named c d) as [|col [|col' rest]]; try discriminate.
  intros [= <-]. eauto.
Qed.

Lemma frame_getitem_cell d c s i :
  frame_getitem d c = Ok s -> cell d c i = s_values s !! i.
Proof.
  intros (col & Hcol & ->)%frame_getitem_inv. unfold cell. by rewrite Hcol.
Qed.

Lemma series_apply_inv f s s' :
  series_apply f s = Ok s' ->
  mapM f (s_values s) = Ok (s_values s') /\ s_index s' = s_index s.
Proof.
  unfold series_apply. intros (vs & Hvs & [= <-])%rbind_ok. done.
Qed.

(** ** What the calls do to the store *)

Lemma df_getitem_ok df c h h' s :
  df_getitem df c h = (h', Ok s) ->
  h' = h /\ exists d, h !! df = Some d /\ frame_getitem d c = Ok s.
Proof.
  unfold df_getitem. intros H. run_ok H.
  apply lift_ok in H as [-> H]. eauto.
Qed.

Lemma df_setitem_ok df c s h h' u :
  df_setitem df c s h = (h', Ok u) ->
  exists d, h !! df = Some d /\ h' = <[df := frame_setitem d c s]> h.
Proof.
  unfold df_setitem. intros H. run_ok H. injection H as <-. eauto.
Qed.

Lemma df_drop_ok df c h h' r :
  df_drop df c h = (h', Ok r) ->
  exists d d', h !! df = Some d /\ frame_drop d c = Ok d'
    /\ h' = h ++ [d'] /\ r = length h.
Proof.
  unfold df_drop. intros H. run_ok H.
  apply alloc_ok in H as [-> ->]. eauto 10.
Qed.

Lemma df_getitem_list_ok df cs h h' r :
  df_getitem_list df cs h = (h', Ok r) ->
  exists d d', h !! df = Some d /\ frame_select d cs = Ok d'
    /\ h' = h ++ [d'] /\ r = length h.
Proof.
  unfold df_getitem_list. intros H. run_ok H.
  apply alloc_ok in H as [-> ->]. eauto 10.
Qed.

(** ** Tuple expander *)

(** What a returning call of the tuple expander did: it read the source
    column, wrote the key column and then the value column into the table
    [df] refers to, and allocated the table it returns. *)
Lemma json_tuple_to_cols_run literal_eval df column_name col_config h h' r d :
  h !! df = Some d ->
  json_tuple_to_cols literal_eval df column_name col_config h = (h', Ok r) ->
  exists s1 ks s2 vs out,
    let d1 := frame_setitem d (cols_key_prop col_config) ks in
    let d2 := frame_setitem d1 (cols_value_prop col_config) vs in
    frame_getitem d column_name = Ok s1
    /\ series_apply
         (fun y => get_value literal_eval y (look_up_key_prop col_config)) s1
       = Ok ks
    /\ frame_getitem d1 column_name = Ok s2
    /\ series_apply
         (fun y => get_value literal_eval y (look_up_value_prop col_config)) s2
       = Ok vs
    /\ frame_drop d2 column_name = Ok out
    /\ h' = <[df := d2]> h ++ [out]
    /\ r = length h.
Proof.
  intros Hd Hrun. unfold json_tuple_to_cols in Hrun.
  assert (Hlt : (df < length h)%nat) by (by eapply lookup_lt_Some).
  apply st_bind_ok in Hrun as (s1 & h1 & H1 & Hrun).
  apply df_getitem_ok in H1 as (-> & d0 & Hd0 & Hs1).
  rewrite Hd in Hd0. injection Hd0 as <-.
  apply st_bind_ok in Hrun as (ks & h1 & H1 & Hrun).
  apply lift_ok in H1 as [-> Hks].
  apply st_bind_ok in Hrun as (u1 & h1 & H1 & Hrun).
  apply df_setitem_ok in H1 as (d0 & Hd0 & ->).
  rewrite Hd in Hd0. injection Hd0 as <-.
  apply st_bind_ok in Hrun as (s2 & h1 & H1 & Hrun).
  apply df_getitem_ok in H1 as (-> & d1 & Hd1 & Hs2).
  rewrite list_lookup_insert_eq in Hd1 by done. injection Hd1 as <-.
  apply st_bind_ok in Hrun as (vs & h1 & H1 & Hrun).
  apply lift_ok in H1 as [-> Hvs].
  apply st_bind_ok in Hrun as (u2 & h1 & H1 & Hrun).
  apply df_setitem_ok in H1 as (d1 & Hd1 & ->).
  rewrite list_lookup_insert_eq in Hd1 by done. injection Hd1 as <-.
  apply df_drop_ok in Hrun as (d2 & out & Hd2 & Hout & -> & ->).
  rewrite list_lookup_insert_eq in Hd2
    by (by rewrite length_insert).
  injection Hd2 as <-.
  rewrite list_insert_insert_eq, length_insert.
  exists s1, ks, s2, vs, out. simpl. done.
Qed.

(** C9, as amended: when the key column, the value column and the source
    column have three different names and the call returns, the row whose
    source cell holds the object [{"name": "Discount", "value": 10}] has
    "Discount" in the key column and 10 in the value column of the returned
    table, under the same row labels, and the source column is not a column
    of the returned table. *)
Theorem json_tuple_to_cols_discount (literal_eval : string -> Result PyVal)
  (df : ref) (column_name : PyKey) (col_config : ColConfig)
  (h h' : Store) (r : ref) (d : DataFrame) (i : nat) :
  look_up_key_prop col_config = "name" ->
  look_up_value_prop col_config = "value" ->
  cols_key_prop col_config <> cols_value_prop col_config ->
  cols_key_prop col_config <> column_name ->
  cols_value_prop col_config <> column_name ->
  h !! df = Some d ->
  cell d column_name i
  = Some (VDict [("name", VStr "Discount"); ("value", VInt 10)]) ->
  json_tuple_to_cols literal_eval df column_name col_config h = (h', Ok r) ->
  exists out,
    h' !! r = Some out
    /\ df_index out = df_index d
    /\ cell out (cols_key_prop col_config) i = Some (VStr "Discount")
    /\ cell out (cols_value_prop col_config) i = Some (VInt 10)
    /\ column_name ∉ labels out.
Proof.
  intros Hlk Hlv HKV HKc HVc Hd Hcell Hrun.
  destruct (json_tuple_to_cols_run _ _ _ _ _ _ _ _ Hd Hrun)
    as (s1 & ks & s2 & vs & out & Hs1 & Hks & Hs2 & Hvs & Hout & -> & ->).
  rewrite Hlk in Hks. rewrite Hlv in Hvs.
  exists out. split.
  { rewrite <- (length_insert h df
                  (frame_setitem (frame_setitem d (cols_key_prop col_config) ks)
                     (cols_value_prop col_config) vs)).
    apply lookup_alloc. }
  split.
  { by apply frame_drop_inv in Hout as (_ & -> & _). }
  apply series_apply_inv in Hks as [Hks _].
  apply series_apply_inv in Hvs as [Hvs _].
  split; [|split].
  - rewrite (cell_drop_ne _ _ _ _ _ Hout) by done.
    rewrite cell_setitem_ne by done. rewrite cell_setitem_eq.
    rewrite (frame_getitem_cell _ _ _ i Hs1) in Hcell.
    destruct (mapM_lookup _ _ _ _ _ Hks Hcell) as (y & -> & Hy).
    simpl in Hy. by injection Hy as <-.
  - rewrite (cell_drop_ne _ _ _ _ _ Hout) by done.
    rewrite cell_setitem_eq.
    rewrite <- (cell_setitem_ne d (cols_key_prop col_config) column_name ks)
      in Hcell by done.
    rewrite (frame_getitem_cell _ _ _ i Hs2) in Hcell.
    destruct (mapM_lookup _ _ _ _ _ Hvs Hcell) as (y & -> & Hy).
    simpl in Hy. by injection Hy as <-.
  - by eapply labels_drop.
Qed.

Lemma json_tuple_to_cols_discount_witness :
  exists out,
    [discounts_written; discounts_expanded] !! 1%nat = Some out
    /\ df_index out = df_index discounts
    /\ cell out (KStr "Name") 0 = Some (VStr "Discount")
    /\ cell out (KStr "Value") 0 = Some (VInt 10)
    /\ KStr "Ref" ∉ labels out.
Proof.
  apply (json_tuple_to_cols_discount (literal_eval_of []) 0%nat (KStr "Ref")
           default_col_config [discounts]
           [discounts_written; discounts_expanded] 1%nat discounts 0%nat);
    first [ reflexivity | discriminate ].
Defined.

(** C9 as stated fails: with the default column names [Name] and [Value],
    a source column that is itself named [Value] is overwritten by the
    values and then dropped, so the returned table has the key column only
    and no value column. *)
Lemma json_tuple_to_cols_value_column_lost :
  cell value_tuples (KStr "Value") 0 = Some discount
  /\ exists written out,
       json_tuple_to_cols (literal_eval_of []) 0%nat (KStr "Value")
         default_col_config [value_tuples]
       = ([written; out], Ok 1%nat)
       /\ labels out = [KStr "Name"]
       /\ cell out (KStr "Value") 0 = None.
Proof.
  split; [reflexivity|]. do 2 eexists. split; [vm_compute; reflexivity|].
  split; reflexivity.
Qed.

(** ** No table of the caller is changed, except by the tuple expander *)

Lemma allocates_only_preserves {A} (m : M A) :
  allocates_only m -> preserves_tables m.
Proof. intros Hm h r d Hr. eapply prefix_lookup_Some; [exact Hr | apply Hm]. Qed.

Lemma allocates_only_ret {A} (a : A) : allocates_only (st_ret a).
Proof. intros h. done. Qed.

Lemma allocates_only_lift {A} (x : Result A) : allocates_only (lift x).
Proof. intros h. done. Qed.

Lemma allocates_only_deref r : allocates_only (deref r).
Proof. intros h. unfold deref. by destruct (h !! r). Qed.

Lemma allocates_only_alloc d : allocates_only (alloc d).
Proof. intros h. simpl. by apply prefix_app_r. Qed.

Lemma allocates_only_bind {A B} (m : M A) (k : A -> M B) :
  allocates_only m -> (forall a, allocates_only (k a)) ->
  allocates_only (st_bind m k).
Proof.
  intros Hm Hk h. unfold st_bind. specialize (Hm h).
  destruct (m h) as [h1 [a|e]]; simpl in *; [|done].
  etrans; [exact Hm | apply Hk].
Qed.

Ltac solve_allocates_only :=
  repeat first
    [ apply allocates_only_bind; [|intros ?]
    | apply allocates_only_lift
    | apply allocates_only_deref
    | apply allocates_only_alloc
    | apply allocates_only_ret ].

Lemma rename_allocates_only df target : allocates_only (rename df target).
Proof.
  destruct target; simpl; unfold df_getitem_list; solve_allocates_only.
Qed.

Lemma explode_json_to_rows_allocates_only le ntr df c ml :
  allocates_only (explode_json_to_rows le ntr df c ml).
Proof. unfold explode_json_to_rows. solve_allocates_only. Qed.

Lemma explode_json_to_cols_allocates_only le df c red :
  allocates_only (explode_json_to_cols le df c red).
Proof. unfold explode_json_to_cols. solve_allocates_only. Qed.

(** The column renamer, the row exploder and the column exploder leave
    every table of the store as it was, whatever their outcome.  The tuple
    expander does not: a call that returns has written the key column and
    the value column into the caller's table, which keeps its source column
    and its other columns; the table it returns is a new one, and every
    other table of the store is as it was. *)
Theorem caller_tables_after_a_call (literal_eval : string -> Result PyVal)
  (nested_to_record : PyVal -> option Z -> Result PyVal) :
  (forall df target, preserves_tables (rename df target))
  /\ (forall df c max_level,
        preserves_tables
          (explode_json_to_rows literal_eval nested_to_record df c max_level))
  /\ (forall df c reducer,
        preserves_tables (explode_json_to_cols literal_eval df c reducer))
  /\ (forall df c cfg h h' r d,
        h !! df = Some d ->
        json_tuple_to_cols literal_eval df c cfg h = (h', Ok r) ->
        exists ks vs,
          h' !! df
          = Some (frame_setitem (frame_setitem d (cols_key_prop cfg) ks)
                    (cols_value_prop cfg) vs)
          /\ (forall c', c' ∈ c :: cols_key_prop cfg :: cols_value_prop cfg
                              :: labels d ->
                c' ∈ labels
                       (frame_setitem (frame_setitem d (cols_key_prop cfg) ks)
                          (cols_value_prop cfg) vs))
          /\ r <> df
          /\ (forall r' x, r' <> df -> h !! r' = Some x -> h' !! r' = Some x)).
Proof.
  split; [|split; [|split]].
  - intros. apply allocates_only_preserves, rename_allocates_only.
  - intros. apply allocates_only_preserves, explode_json_to_rows_allocates_only.
  - intros. apply allocates_only_preserves, explode_json_to_cols_allocates_only.
  - intros df c cfg h h' r d Hd Hrun.
    destruct (json_tuple_to_cols_run _ _ _ _ _ _ _ _ Hd Hrun)
      as (s1 & ks & s2 & vs & out & Hs1 & Hks & Hs2 & Hvs & Hout & -> & ->).
    assert (Hlt : (df < length h)%nat) by (by eapply lookup_lt_Some).
    exists ks, vs. split; [|split; [|split]].
    + rewrite lookup_app_l by (by rewrite length_insert).
      by apply list_lookup_insert_eq.
    + intros c' Hc'.
      apply elem_of_cons in Hc' as [->|Hc'];
        [by eapply frame_drop_ok|].
      apply elem_of_cons in Hc' as [->|Hc'].
      { apply labels_setitem.
        pose proof (columns_named_setitem_some d (cols_key_prop cfg) ks) as Hs.
        destruct (columns_named (cols_key_prop cfg)
                    (frame_setitem d (cols_key_prop cfg) ks))
          as [|col rest] eqn:Hcols; [done|].
        assert (Hin : col ∈ columns_named (cols_key_prop cfg)
                        (frame_setitem d (cols_key_prop cfg) ks))
          by (rewrite Hcols; apply list_elem_of_here).
        apply list_elem_of_filter in Hin as [Hc Hin].
        unfold labels. apply list_elem_of_fmap. eauto. }
      apply elem_of_cons in Hc' as [->|Hc'].
      { match goal with |- _ ∈ labels (frame_setitem ?d1 ?c ?s) =>
          pose proof (columns_named_setitem_some d1 c s) as Hs;
          destruct (columns_named c (frame_setitem d1 c s))
            as [|col rest] eqn:Hcols; [done|];
          assert (Hin : col ∈ columns_named c (frame_setitem d1 c s))
            by (rewrite Hcols; apply list_elem_of_here)
        end.
        apply list_elem_of_filter in Hin as [Hc Hin].
        unfold labels. apply list_elem_of_fmap. eauto. }
      by do 2 apply labels_setitem.
    + lia.
    + intros r' x Hne Hr'.
      rewrite lookup_app_l
        by (rewrite length_insert; by eapply lookup_lt_Some).
      by rewrite list_lookup_insert_ne.
Qed.

Lemma caller_tables_after_a_call_witness :
  (rename 0%nat (TList [KStr "Doc"]) [discounts]).1 !! 0%nat = Some discounts
  /\ exists ks vs,
       [discounts_written; discounts_expanded] !! 0%nat
       = Some (frame_setitem (frame_setitem discounts (KStr "Name") ks)
                 (KStr "Value") vs).
Proof.
  destruct (caller_tables_after_a_call (literal_eval_of [])
              nested_to_record_flat) as (Hrename & _ & _ & Htuple).
  split.
  - apply Hrename. reflexivity.
  - destruct (Htuple 0%nat (KStr "Ref") default_col_config [discounts]
                [discounts_written; discounts_expanded] 1%nat discounts
                eq_refl eq_refl) as (ks & vs & Hw & _).
    exists ks, vs. exact Hw.
Defined.

(** C2, the code against the claim: after the tuple expander has run on a
    table with the columns [Doc] and [Ref], the table the caller passed in
    has the columns [Doc], [Ref], [Name] and [Value]: the call has changed
    it, where the column exploder works on a copy ([df[source_columns]]) and
    leaves it as it was. *)
Theorem json_tuple_to_cols_writes_to_caller_table :
  labels discounts = [KStr "Doc"; KStr "Ref"]
  /\ exists h' written,
       json_tuple_to_cols (literal_eval_of []) 0%nat (KStr "Ref")
         default_col_config [discounts] = (h', Ok 1%nat)
       /\ h' !! 0%nat = Some written
       /\ labels written
          = [KStr "Doc"; KStr "Ref"; KStr "Name"; KStr "Value"]
       /\ (explode_json_to_cols (literal_eval_of []) 0%nat (KStr "Ref") None
             [discounts]).1 !! 0%nat = Some discounts.
Proof.
  split; [reflexivity|].
  exists [discounts_written; discounts_expanded], discounts_written.
  split; [vm_compute; reflexivity|]. split; [reflexivity|].
  split; [reflexivity|]. vm_compute. reflexivity.
Qed.

(** ** Column renamer *)

Lemma filter_all {A} (P : A -> Prop) `{forall x, Decision (P x)} (l : list A) :
  (forall x, x ∈ l -> P x) -> filter P l = l.
Proof.
  induction l as [|x l IH]; intros Hall; [done|].
  rewrite filter_cons_True by (apply Hall, list_elem_of_here).
  f_equal. apply IH. intros y Hy. apply Hall. by apply list_elem_of_further.
Qed.

Lemma filter_none {A} (P : A -> Prop) `{forall x, Decision (P x)}
  (l : list A) :
  (forall x, x ∈ l -> ~ P x) -> filter P l = [].
Proof.
  induction l as [|x l IH]; intros Hall; [done|].
  rewrite filter_cons_False by (apply Hall, list_elem_of_here).
  apply IH. intros y Hy. apply Hall. by apply list_elem_of_further.
Qed.

Lemma forallb_labels (d : DataFrame) cs :
  (forall c, c ∈ cs -> c ∈ labels d) ->
  forallb (fun c => bool_decide (c ∈ labels d)) cs = true.
Proof.
  induction cs as [|c cs IH]; intros Hall; simpl; [done|].
  rewrite bool_decide_eq_true_2 by (apply Hall, list_elem_of_here).
  apply IH. intros c' Hc'. apply Hall. by apply list_elem_of_further.
Qed.

Lemma frame_select_ok d cs :
  (forall c, c ∈ cs -> c ∈ labels d) ->
  frame_select d cs
  = Ok {| df_index := df_index d;
          df_columns := cs ≫= (fun c => columns_named c d) |}.
Proof. intros Hall. unfold frame_select. by rewrite forallb_labels. Qed.

Lemma columns_named_label c d col : col ∈ columns_named c d -> col.1 = c.
Proof. unfold columns_named. rewrite list_elem_of_filter. tauto. Qed.

Lemma columns_named_elem c d col :
  col ∈ columns_named c d <-> col.1 = c /\ col ∈ df_columns d.
Proof. unfold columns_named. by rewrite list_elem_of_filter. Qed.

Lemma labels_columns_named c d : c ∈ labels d <-> columns_named c d <> [].
Proof.
  split.
  - intros (col & -> & Hin)%list_elem_of_fmap Hnil.
    assert (Hx : col ∈ columns_named col.1 d) by (by apply columns_named_elem).
    rewrite Hnil in Hx. by apply not_elem_of_nil in Hx.
  - intros Hne. destruct (columns_named c d) as [|col rest] eqn:Hcols; [done|].
    assert (Hx : col ∈ columns_named c d)
      by (rewrite Hcols; apply list_elem_of_here).
    apply columns_named_elem in Hx as [<- Hin].
    apply list_elem_of_fmap. eauto.
Qed.

Lemma filter_eq_bind_columns (c : PyKey) (d : DataFrame) (cs : list PyKey) :
  filter (fun col : PyKey * list PyVal => col.1 = c)
    (cs ≫= (fun c' => columns_named c' d))
  = filter (fun c' => c' = c) cs ≫= (fun _ => columns_named c d).
Proof.
  induction cs as [|c0 cs IH]; [done|].
  rewrite bind_cons, filter_app, IH, filter_cons.
  destruct (decide (c0 = c)) as [->|Hne].
  - rewrite bind_cons. f_equal.
    apply filter_all. intros col Hcol. by eapply columns_named_label.
  - rewrite <- (app_nil_l (filter _ cs ≫= _)) at 2. f_equal.
    apply filter_none. intros col Hcol Hc.
    apply columns_named_label in Hcol. congruence.
Qed.

Lemma filter_eq_NoDup (c : PyKey) (cs : list PyKey) :
  NoDup cs -> c ∈ cs -> filter (fun c' => c' = c) cs = [c].
Proof.
  induction 1 as [|c0 cs Hnotin Hnd IH]; intros Hin.
  - by apply not_elem_of_nil in Hin.
  - rewrite filter_cons. destruct (decide (c0 = c)) as [->|Hne].
    + f_equal. apply filter_none. intros c' Hc' ->. done.
    + apply elem_of_cons in Hin as [->|Hin]; [done|]. by apply IH.
Qed.

Lemma labels_bind_singletons (d : DataFrame) (cs : list PyKey) :
  (forall c, c ∈ cs -> exists col, columns_named c d = [col]) ->
  (cs ≫= (fun c => columns_named c d)).*1 = cs.
Proof.
  induction cs as [|c cs IH]; intros Hall; [done|].
  rewrite bind_cons, fmap_app.
  destruct (Hall c) as [col Hcol]; [apply list_elem_of_here|].
  rewrite Hcol. simpl. f_equal.
  - apply (columns_named_label c d). rewrite Hcol. apply list_elem_of_here.
  - apply IH. intros c' Hc'. apply Hall. by apply list_elem_of_further.
Qed.

Lemma bind_ext_elem {A B} (f g : A -> list B) (l : list A) :
  (forall x, x ∈ l -> f x = g x) -> l ≫= f = l ≫= g.
Proof.
  induction l as [|x l IH]; intros Hfg; [done|].
  rewrite !bind_cons. f_equal.
  - apply Hfg, list_elem_of_here.
  - apply IH. intros y Hy. apply Hfg. by apply list_elem_of_further.
Qed.

(** C6, as amended: for a list of pairwise distinct names, each of which
    names exactly one column of the table, the column renamer returns a new
    table whose columns are the list's elements in the list's order, with
    the row labels and the cells of the table it was given; renaming the
    result with the same list returns a table equal to it. *)
Theorem rename_list_exact (df : ref) (l : list PyKey) (h : Store)
  (d : DataFrame) :
  h !! df = Some d ->
  NoDup l ->
  (forall c, c ∈ l -> exists col, columns_named c d = [col]) ->
  exists out,
    rename df (TList l) h = (h ++ [out], Ok (length h))
    /\ labels out = l
    /\ df_index out = df_index d
    /\ (forall c i, c ∈ l -> cell out c i = cell d c i)
    /\ rename (length h) (TList l) (h ++ [out])
       = (h ++ [out] ++ [out], Ok (S (length h))).
Proof.
  intros Hd Hnd Hone.
  assert (Hin : forall c, c ∈ l -> c ∈ labels d).
  { intros c Hc. apply labels_columns_named.
    destruct (Hone c Hc) as [col ->]. done. }
  set (out := {| df_index := df_index d;
                 df_columns := l ≫= (fun c => columns_named c d) |}).
  assert (Hlabels : labels out = l) by (by apply labels_bind_singletons).
  assert (Hsame : forall c, c ∈ l -> columns_named c out = columns_named c d).
  { intros c Hc. unfold columns_named at 1. simpl.
    rewrite filter_eq_bind_columns, filter_eq_NoDup by done.
    simpl. by rewrite app_nil_r. }
  exists out. split; [|split; [done|split; [done|split]]].
  - simpl. unfold df_getitem_list, st_bind, deref. rewrite Hd.
    unfold lift. by rewrite frame_select_ok.
  - intros c i Hc. unfold cell. by rewrite Hsame.
  - simpl. unfold df_getitem_list, st_bind, deref.
    rewrite lookup_alloc. unfold lift.
    rewrite frame_select_ok by (by rewrite Hlabels).
    rewrite (bind_ext_elem _ (fun c => columns_named c d)) by done.
    unfold alloc. rewrite length_app, <- app_assoc. simpl.
    do 2 f_equal. lia.
Qed.

Lemma rename_list_exact_witness :
  exists out,
    rename 0%nat (TList [KStr "Ref"; KStr "Doc"]) [discounts]
    = ([discounts] ++ [out], Ok 1%nat)
    /\ labels out = [KStr "Ref"; KStr "Doc"]
    /\ df_index out = df_index discounts
    /\ (forall c i, c ∈ [KStr "Ref"; KStr "Doc"] ->
          cell out c i = cell discounts c i)
    /\ rename 1%nat (TList [KStr "Ref"; KStr "Doc"]) ([discounts] ++ [out])
       = ([discounts] ++ [out] ++ [out], Ok 2%nat).
Proof.
  apply (rename_list_exact 0%nat [KStr "Ref"; KStr "Doc"] [discounts]
           discounts eq_refl).
  - compute_done.
  - intros c Hc. apply elem_of_cons in Hc as [->|Hc]; [by eexists|].
    apply elem_of_cons in Hc as [->|Hc]; [by eexists|].
    by apply not_elem_of_nil in Hc.
Defined.

(** C6 as stated fails: with a list that names the one column [Doc] twice,
    the first call returns a table with two columns [Doc], and the second
    call with the same list returns a table with four. *)
Lemma rename_list_twice_differs :
  exists out out2,
    rename 0%nat (TList [KStr "Doc"; KStr "Doc"]) [discounts]
    = ([discounts; out], Ok 1%nat)
    /\ labels out = [KStr "Doc"; KStr "Doc"]
    /\ rename 1%nat (TList [KStr "Doc"; KStr "Doc"]) [discounts; out]
       = ([discounts; out; out2], Ok 2%nat)
    /\ labels out2 = [KStr "Doc"; KStr "Doc"; KStr "Doc"; KStr "Doc"].
Proof.
  do 2 eexists. split; [vm_compute; reflexivity|].
  split; [reflexivity|]. split; [vm_compute; reflexivity|]. reflexivity.
Qed.

Lemma elem_of_unique (x : PyKey) (l : list PyKey) : x ∈ unique l <-> x ∈ l.
Proof.
  induction l as [|x0 l IH]; simpl; [done|].
  rewrite !elem_of_cons, list_elem_of_filter, IH. split.
  - intros [->|[_ Hin]]; [by left | by right].
  - intros [->|Hin]; [by left|].
    destruct (decide (x = x0)) as [->|Hne]; [by left | by right].
Qed.

Lemma unique_NoDup (l : list PyKey) : NoDup l -> unique l = l.
Proof.
  induction 1 as [|x l Hnotin Hnd IH]; simpl; [done|].
  rewrite IH. f_equal. apply filter_all. intros y Hy ->. done.
Qed.

Lemma dict_get_Some_keys {V} (m : list (PyKey * V)) k v :
  dict_get m k = Some v -> k ∈ dict_keys m.
Proof.
  unfold dict_keys. induction m as [|[k0 v0] m IH]; simpl; [done|].
  destruct (decide (k0 = k)) as [->|Hne].
  - intros _. apply list_elem_of_here.
  - intros Hget. apply list_elem_of_further. by apply IH.
Qed.

Lemma dict_get_keys_Some {V} (m : list (PyKey * V)) k :
  k ∈ dict_keys m -> exists v, dict_get m k = Some v.
Proof.
  unfold dict_keys. induction m as [|[k0 v0] m IH]; simpl.
  - by intros ?%not_elem_of_nil.
  - destruct (decide (k0 = k)) as [->|Hne]; [by eauto|].
    intros [->|Hin]%elem_of_cons; [done|]. by apply IH.
Qed.

Lemma omap_dict_get_keys (m : list (PyKey * PyKey)) (ks : list PyKey) :
  (forall k, k ∈ ks -> k ∈ dict_keys m) ->
  omap (dict_get m) ks
  = (fun k => match dict_get m k with
              | Some c => c
              | None => k
              end) <$> ks.
Proof.
  induction ks as [|k ks IH]; intros Hall; [done|].
  simpl. destruct (dict_get_keys_Some m k) as [c Hc];
    [apply Hall, list_elem_of_here|].
  rewrite Hc. simpl. f_equal. apply IH.
  intros k' Hk'. apply Hall. by apply list_elem_of_further.
Qed.

Lemma NoDup_labels_singleton (d : DataFrame) (c : PyKey) :
  NoDup (labels d) -> c ∈ labels d -> exists col, columns_named c d = [col].
Proof.
  unfold labels, columns_named.
  induction (df_columns d) as [|col cols IH]; intros Hnd Hin.
  - by apply not_elem_of_nil in Hin.
  - rewrite fmap_cons in Hnd, Hin. apply NoDup_cons in Hnd as [Hnotin Hnd].
    destruct (decide (col.1 = c)) as [Hc|Hc].
    + exists col. rewrite filter_cons_True by done. f_equal.
      apply filter_none. intros col' Hcol' Hc'. apply Hnotin.
      apply list_elem_of_fmap. exists col'. split; [congruence|done].
    + rewrite filter_cons_False by done. apply IH; [done|].
      apply elem_of_cons in Hin as [->|Hin]; done.
Qed.

Lemma fmap_bind_list {A B C} (f : B -> C) (g : A -> list B) (l : list A) :
  f <$> (l ≫= g) = l ≫= (fun x => f <$> g x).
Proof.
  induction l as [|x l IH]; [done|].
  rewrite !bind_cons, fmap_app. by rewrite IH.
Qed.

(** C5: with a mapping as target the column renamer returns, without
    failing, a new table over the same row labels whose columns are exactly
    the columns of the table whose name is a key of the mapping, each under
    the name the mapping gives it: columns whose name is no key are
    dropped, keys that name no column are ignored.  The columns come in the
    order of the mapping's keys, for every table: key by key, the columns
    of the table that carry the key (all of them, in their order, should a
    label repeat in the table), under the key's new name. *)
Theorem rename_mapping_restricts (df : ref) (m : list (PyKey * PyKey))
  (h : Store) (d : DataFrame) :
  h !! df = Some d ->
  exists out,
    rename df (TDict m) h = (h ++ [out], Ok (length h))
    /\ df_index out = df_index d
    /\ (forall c vals,
          (c, vals) ∈ df_columns out
          <-> exists k, dict_get m k = Some c /\ (k, vals) ∈ df_columns d)
    /\ df_columns out
       = filter (fun k => k ∈ labels d) (unique (dict_keys m))
           ≫= (fun k => (fun col : PyKey * list PyVal =>
                            (default k (dict_get m k), col.2))
                           <$> columns_named k d)
    /\ (NoDup (dict_keys m) -> NoDup (labels d) ->
          labels out
          = omap (dict_get m)
              (filter (fun k => k ∈ labels d) (dict_keys m))).
Proof.
  intros Hd.
  set (names := index_intersection (dict_keys m) (labels d)).
  assert (Hnames : forall k, k ∈ names <-> k ∈ dict_keys m /\ k ∈ labels d).
  { intros k. unfold names, index_intersection.
    rewrite list_elem_of_filter, elem_of_unique. tauto. }
  set (sel := {| df_index := df_index d;
                 df_columns := names ≫= (fun c => columns_named c d) |}).
  exists (frame_rename sel m).
  split; [|split; [done|split; [|split]]].
  - simpl. unfold st_bind, deref. rewrite Hd. unfold lift. fold names.
    rewrite frame_select_ok by (intros c Hc; by apply Hnames in Hc as [_ ?]).
    done.
  - intros c vals. simpl. rewrite list_elem_of_fmap. split.
    + intros ([k vals'] & [= -> ->] & Hin). simpl.
      apply list_elem_of_bind in Hin as (k' & Hcol & Hk').
      apply columns_named_elem in Hcol as [Hk Hcol]. simpl in Hk. subst k'.
      apply Hnames in Hk' as [Hkm _].
      destruct (dict_get_keys_Some _ _ Hkm) as [c Hc].
      exists k. rewrite Hc. done.
    + intros (k & Hc & Hin). exists (k, vals). simpl. rewrite Hc.
      split; [done|]. apply list_elem_of_bind. exists k. split.
      * by apply columns_named_elem.
      * apply Hnames. split; [by eapply dict_get_Some_keys|].
        unfold labels. apply list_elem_of_fmap. by exists (k, vals).
  - unfold frame_rename, sel. cbn [df_columns].
    rewrite fmap_bind_list. apply bind_ext_elem. intros k _.
    apply list_fmap_ext. intros i col Hi.
    assert (col.1 = k) as ->.
    { apply (columns_named_label k d). by eapply list_elem_of_lookup_2. }
    by destruct (dict_get m col.1).
  - intros Hndm Hndl.
    assert (Hsel : labels sel = names).
    { apply labels_bind_singletons. intros c Hc.
      apply NoDup_labels_singleton; [done|]. by apply Hnames in Hc as [_ ?]. }
    unfold labels in *. simpl in *.
    rewrite <- list_fmap_compose.
    transitivity ((fun k => match dict_get m k with
                            | Some c' => c'
                            | None => k
                            end) <$> names).
    { rewrite <- Hsel at 2. by rewrite <- list_fmap_compose. }
    unfold names, index_intersection. rewrite unique_NoDup by done.
    symmetry. apply omap_dict_get_keys.
    intros k Hk. by apply list_elem_of_filter in Hk as [_ ?].
Qed.

Lemma rename_mapping_restricts_witness :
  exists out,
    rename 0%nat (TDict b_then_a) [repeated_a]
    = ([repeated_a] ++ [out], Ok 1%nat)
    /\ df_index out = df_index repeated_a
    /\ (forall c vals,
          (c, vals) ∈ df_columns out
          <-> exists k, dict_get b_then_a k = Some c
                        /\ (k, vals) ∈ df_columns repeated_a)
    /\ df_columns out
       = filter (fun k => k ∈ labels repeated_a) (unique (dict_keys b_then_a))
           ≫= (fun k => (fun col : PyKey * list PyVal =>
                            (default k (dict_get b_then_a k), col.2))
                           <$> columns_named k repeated_a)
    /\ (NoDup (dict_keys b_then_a) -> NoDup (labels repeated_a) ->
          labels out
          = omap (dict_get b_then_a)
              (filter (fun k => k ∈ labels repeated_a)
                 (dict_keys b_then_a))).
Proof.
  apply (rename_mapping_restricts 0%nat b_then_a [repeated_a] repeated_a).
  reflexivity.
Defined.

(** On a table in which the label [a] repeats, with a mapping that names
    [b] before [a], the renamed table has the column of [b] first and then
    both columns of [a], each under its new name. *)
Example rename_mapping_repeated_label :
  rename 0%nat (TDict b_then_a) [repeated_a]
  = ([repeated_a;
      {| df_index := [KInt 0];
         df_columns := [(KStr "y", [VInt 2]); (KStr "x", [VInt 1]);
                        (KStr "x", [VInt 3])] |}], Ok 1%nat).
Proof. vm_compute. reflexivity. Qed.

(** On the worked input the renamed table has the columns [Reference] and
    [Document], in the order of the mapping's keys. *)
Example rename_mapping_example :
  rename 0%nat (TDict ref_mapping) [discounts]
  = ([discounts;
      {| df_index := [KInt 0];
         df_columns := [(KStr "Reference", [discount]);
                        (KStr "Document", [VStr "A"])] |}], Ok 1%nat).
Proof. vm_compute. reflexivity. Qed.

(** ** Column exploder *)

Lemma cell_of_all (d : DataFrame) (c : PyKey) (i : nat)
  (x : PyKey * list PyVal) :
  columns_named c d <> [] ->
  (forall col, col ∈ columns_named c d -> col = x) ->
  cell d c i = x.2 !! i.
Proof.
  intros Hsome Hall. unfold cell.
  destruct (columns_named c d) as [|col rest]; [done|].
  by rewrite (Hall col) by apply list_elem_of_here.
Qed.

Lemma filter_fmap_fst (c : PyKey) (cols : list (PyKey * list PyVal)) :
  filter (fun c' => c' = c) cols.*1
  = (filter (fun col : PyKey * list PyVal => col.1 = c) cols).*1.
Proof.
  induction cols as [|col cols IH]; [done|].
  rewrite fmap_cons, !filter_cons, IH.
  by destruct (decide (col.1 = c)).
Qed.

(** Selecting all the columns of a table by its own labels keeps a column
    that was the only one of its name. *)
Lemma columns_named_select_self (d : DataFrame) (c : PyKey) col :
  filter (fun col : PyKey * list PyVal => col.1 = c)
    (labels d ≫= (fun c' => columns_named c' d)) = [col] ->
  columns_named c d = [col].
Proof.
  rewrite filter_eq_bind_columns. unfold labels at 1.
  rewrite filter_fmap_fst. fold (columns_named c d).
  destruct (columns_named c d) as [|x [|y rest]]; simpl.
  - done.
  - done.
  - discriminate.
Qed.

Lemma positions_from_NoDup (l : list PyKey) (n i : nat) (x : PyKey) :
  NoDup l -> l !! i = Some x -> positions_from n x l = [(n + i)%nat].
Proof.
  intros Hnd. revert n i. induction Hnd as [|x0 l Hnotin Hnd IH];
    intros n i Hi; [done|].
  simpl. destruct i as [|i]; simpl in Hi.
  - injection Hi as ->. rewrite decide_True by done.
    rewrite Nat.add_0_r. f_equal.
    clear IH Hnd. revert n. induction l as [|y l IHl]; intros n; [done|].
    simpl. apply not_elem_of_cons in Hnotin as [Hne Hnotin].
    rewrite decide_False by done. by apply IHl.
  - rewrite decide_False.
    + rewrite (IH (S n) i Hi). f_equal. lia.
    + intros ->. apply Hnotin. by eapply list_elem_of_lookup_2.
Qed.

Lemma concat_imap_singleton {A B} (g : nat -> A -> B) (l : list A) :
  concat (imap (fun i x => [g i x]) l) = imap g l.
Proof.
  revert g. induction l as [|x l IH]; intros g; [done|].
  simpl. f_equal. apply (IH (g ∘ S)).
Qed.

(** On row labels that are pairwise distinct, the left join of a table with
    a table over the same row labels pairs each row with itself. *)
Lemma join_indexer_self (li : list PyKey) :
  NoDup li -> join_indexer li li = imap (fun i _ => (i, Some i)) li.
Proof.
  intros Hnd. unfold join_indexer.
  rewrite <- (concat_imap_singleton (fun i _ => (i, Some i))).
  f_equal. apply imap_ext. intros i x Hi.
  by rewrite (positions_from_NoDup li 0 i x).
Qed.

Lemma lookup_imap_const {A B} (g : nat -> B) (l : list A) (i : nat) :
  (i < length l)%nat -> imap (fun j _ => g j) l !! i = Some (g i).
Proof.
  intros Hi. rewrite list_lookup_imap.
  destruct (lookup_lt_is_Some_2 l i Hi) as [x ->]. done.
Qed.

Lemma omap_lookup_imap {A B} (l : list A) (pre : list A) (g : nat -> B) :
  omap (fun p : nat * B => (pre ++ l) !! p.1)
    (imap (fun j _ => ((length pre + j)%nat, g j)) l) = l.
Proof.
  revert pre g. induction l as [|x l IH]; intros pre g; [done|].
  simpl. rewrite Nat.add_0_r, list_lookup_middle by done. simpl. f_equal.
  specialize (IH (pre ++ [x]) (g ∘ S)).
  rewrite <- app_assoc in IH. simpl in IH.
  etrans; [|exact IH]. f_equal. apply imap_ext. intros j y _. simpl.
  rewrite length_app. simpl. f_equal. lia.
Qed.

Lemma take_opt_lookup (ixs : list (option nat)) (vs : list PyVal) i j :
  ixs !! i = Some (Some j) ->
  take_opt ixs vs !! i = Some (default VNaN (vs !! j)).
Proof. intros Hi. unfold take_opt. by rewrite list_lookup_fmap, Hi. Qed.

Lemma elem_of_concat {A} (x : A) (ls : list (list A)) :
  x ∈ concat ls <-> exists l, x ∈ l /\ l ∈ ls.
Proof.
  induction ls as [|l0 ls IH]; simpl.
  - split; [by intros ?%not_elem_of_nil|].
    intros (l & _ & Hl). by apply not_elem_of_nil in Hl.
  - rewrite elem_of_app, IH. split.
    + intros [Hx|(l & Hx & Hl)].
      * exists l0. split; [done|apply list_elem_of_here].
      * exists l. split; [done|by apply list_elem_of_further].
    + intros (l & Hx & [->|Hl]%elem_of_cons); [by left|].
      right. eauto.
Qed.

(** What a returning call of the column exploder did. *)
Lemma explode_json_to_cols_run literal_eval df c reducer h h' r d :
  h !! df = Some d ->
  explode_json_to_cols literal_eval df c reducer h = (h', Ok r) ->
  exists col dropped new_cols out,
    columns_named c d = [col]
    /\ frame_drop
         {| df_index := df_index d;
            df_columns := labels d ≫= (fun c' => columns_named c' d) |} c
       = Ok dropped
    /\ series_apply_records
         (json_to_series literal_eval
            (default (array_to_dict_reducer "Name" "Value") reducer))
         {| s_name := Some c; s_index := df_index d; s_values := col.2 |}
       = Ok new_cols
    /\ frame_join_applied dropped new_cols = Ok out
    /\ h' = h ++ [out]
    /\ r = length h.
Proof.
  intros Hd Hrun. unfold explode_json_to_cols in Hrun.
  apply st_bind_ok in Hrun as (d0 & h1 & H1 & Hrun).
  apply deref_ok in H1 as [-> Hd0]. rewrite Hd in Hd0. injection Hd0 as <-.
  rewrite frame_select_ok in Hrun by done.
  apply st_bind_ok in Hrun as (child & h1 & H1 & Hrun).
  apply lift_ok in H1 as [-> [= <-]].
  apply st_bind_ok in Hrun as (dropped & h1 & H1 & Hrun).
  apply lift_ok in H1 as [-> Hdrop].
  apply st_bind_ok in Hrun as (s & h1 & H1 & Hrun).
  apply lift_ok in H1 as [-> Hs].
  apply st_bind_ok in Hrun as (new_cols & h1 & H1 & Hrun).
  apply lift_ok in H1 as [-> Hnew].
  apply st_bind_ok in Hrun as (out & h1 & H1 & Hrun).
  apply lift_ok in H1 as [-> Hjoin].
  apply alloc_ok in Hrun as [-> ->].
  apply frame_getitem_inv in Hs as (col & Hcol & ->).
  unfold columns_named in Hcol. simpl in Hcol.
  pose proof (columns_named_select_self d c col Hcol) as Hcold.
  exists col, dropped, new_cols, out. simpl in *. done.
Qed.

Lemma labels_join_left (l : DataFrame) (ixs : list (nat * option nat)) :
  ((fun col : PyKey * list PyVal =>
      (col.1, take_opt ((Some ∘ fst) <$> ixs) col.2)) <$> df_columns l).*1
  = labels l.
Proof. unfold labels. rewrite <- list_fmap_compose. done. Qed.



Lemma frame_join_index (l r out : DataFrame) :
  NoDup (df_index l) -> df_index r = df_index l ->
  frame_join l r = Ok out -> df_index out = df_index l.
Proof.
  intros Hnd Hidx Hjoin. unfold frame_join in Hjoin.
  case_bool_decide; [discriminate|]. injection Hjoin as <-. simpl.
  rewrite Hidx, join_indexer_self by done.
  apply (omap_lookup_imap (df_index l) [] Some).
Qed.

Lemma frame_join_labels (l r out : DataFrame) :
  frame_join l r = Ok out -> labels out = labels l ++ labels r.
Proof.
  unfold frame_join. case_bool_decide; [discriminate|]. intros [= <-].
  unfold labels. simpl. rewrite fmap_app, <- !list_fmap_compose. done.
Qed.




(** ** Text operations *)

Lemma append_cons (c : ascii) (s t : string) :
  (String c s ++ t)%string = String c (s ++ t)%string.
Proof. reflexivity. Qed.

Lemma append_empty_r (s : string) : (s ++ "")%string = s.
Proof.
  induction s as [|c s IH]; [done|]. by rewrite append_cons, IH.
Qed.

Lemma append_assoc (a b c : string) :
  ((a ++ b) ++ c)%string = (a ++ (b ++ c))%string.
Proof.
  induction a as [|x a IH]; [done|]. by rewrite !append_cons, IH.
Qed.

Lemma endswith_app (p e suffix : string) :
  endswith e suffix = true -> endswith (p ++ e)%string suffix = true.
Proof.
  intros He. induction p as [|c p IH]; [done|].
  rewrite append_cons. cbn [endswith].
  destruct (String.eqb _ suffix); [done|]. exact IH.
Qed.

Lemma endswith_inv (s suffix : string) :
  endswith s suffix = true -> exists p, s = (p ++ suffix)%string.
Proof.
  induction s as [|c s IH]; cbn [endswith].
  - destruct (String.eqb_spec "" suffix) as [<-|]; [|done].
    intros _. by exists ""%string.
  - destruct (String.eqb_spec (String c s) suffix) as [<-|].
    + intros _. by exists ""%string.
    + intros [p ->]%IH. by exists (String c p).
Qed.

Lemma split_go_nonempty sep skip cur s : split_go sep skip cur s <> [].
Proof.
  revert skip cur. induction s as [|c s IH]; intros skip cur;
    cbn [split_go]; [done|].
  destruct skip; [|apply IH]. destruct (String.prefix sep _); [done|apply IH].
Qed.

Lemma last_cons_nonempty {A} (x : A) (l : list A) (dflt : A) :
  l <> [] -> List.last (x :: l) dflt = List.last l dflt.
Proof. by destruct l. Qed.

(** Text without a slash is one piece. *)
Lemma split_go_no_slash (cur e : string) :
  contains "/" e = false -> split_go "/" 0 cur e = [(cur ++ e)%string].
Proof.
  revert cur. induction e as [|c e IH]; intros cur Hc; cbn [split_go].
  - by rewrite append_empty_r.
  - cbn [contains] in Hc.
    destruct (String.prefix "/" (String c e)) eqn:Hp; [done|].
    rewrite (IH _ Hc), append_assoc. done.
Qed.

Lemma prefix_slash_cons (e : string) :
  String.prefix "/" (String "/" e) = true.
Proof. by destruct e. Qed.

(** The last piece of a path is what follows its last slash. *)
Lemma last_split_slash (p e cur : string) :
  contains "/" e = false ->
  List.last (split_go "/" 0 cur (p ++ "/" ++ e)%string) ""%string = e.
Proof.
  intros He. revert cur. induction p as [|c p IH]; intros cur.
  - change ("" ++ "/" ++ e)%string with (String "/" e).
    cbn [split_go]. rewrite prefix_slash_cons.
    change (String.length "/" - 1)%nat with 0%nat.
    rewrite last_cons_nonempty by apply split_go_nonempty.
    by rewrite split_go_no_slash.
  - rewrite append_cons. cbn [split_go].
    destruct (String.prefix "/" (String c (p ++ "/" ++ e))).
    + rewrite last_cons_nonempty by apply split_go_nonempty. apply IH.
    + apply IH.
Qed.

Lemma last_split_path_join (path e : string) :
  String.prefix "/" e = false -> contains "/" e = false ->
  List.last (split (path_join path e) "/") ""%string = e.
Proof.
  intros Hp He. unfold path_join, split. rewrite Hp.
  destruct (String.eqb_spec path "") as [->|Hne]; simpl.
  - by rewrite split_go_no_slash.
  - destruct (endswith path "/") eqn:Hend.
    + apply endswith_inv in Hend as [p ->].
      rewrite append_assoc. by apply last_split_slash.
    + by apply last_split_slash.
Qed.

Lemma endswith_path_join (path e suffix : string) :
  String.prefix "/" e = false -> endswith e suffix = true ->
  endswith (path_join path e) suffix = true.
Proof.
  intros Hp He. unfold path_join. rewrite Hp.
  destruct (_ || _).
  - by apply endswith_app.
  - by apply endswith_app, (endswith_app "/").
Qed.

(** ** Folder loader *)

Section LoaderProperties.
Variable isdir : string -> bool.
Variable listdir : string -> list string.
Variable isfile : string -> bool.
Variables IndexCol Converters : Type.
Variable read_csv :
  string -> option IndexCol -> option Converters -> Result DataFrame.

Lemma entity_type_of_account (path entry : string) :
  entry = "Account-1.csv" \/ entry = "Account-2.csv" ->
  entity_type_of (path_join path entry) = "Account".
Proof.
  intros Hentry. unfold entity_type_of.
  rewrite last_split_path_join by (by destruct Hentry as [->| ->]).
  by destruct Hentry as [->| ->].
Qed.

(** C4: for a directory whose listing is exactly the two regular files
    [Account-1.csv] and [Account-2.csv], in either order, the folder loader
    returns the mapping with the single key [Account], and its table is the
    one parsed from the file listed first; the second file is not parsed
    (nothing is asked of [read_csv] on it). *)
Theorem read_csv_folder_first_file_wins (path first second : string)
  (converters : gmap string Converters) (index_cols : gmap string IndexCol)
  (t : DataFrame) :
  isdir path = true ->
  (first = "Account-1.csv" /\ second = "Account-2.csv")
  \/ (first = "Account-2.csv" /\ second = "Account-1.csv") ->
  listdir path = [first; second] ->
  isfile (path_join path first) = true ->
  isfile (path_join path second) = true ->
  read_csv (path_join path first) (index_cols !! "Account")
    (converters !! "Account") = Ok t ->
  read_csv_folder isdir listdir isfile IndexCol Converters read_csv
    path converters index_cols
  = Ok {["Account" := t]}.
Proof.
  intros Hdir Hnames Hlist Hf1 Hf2 Hread.
  assert (H1 : first = "Account-1.csv" \/ first = "Account-2.csv")
    by (destruct Hnames as [[-> _]|[-> _]]; auto).
  assert (H2 : second = "Account-1.csv" \/ second = "Account-2.csv")
    by (destruct Hnames as [[_ ->]|[_ ->]]; auto).
  assert (He1 : endswith (path_join path first) ".csv" = true)
    by (apply endswith_path_join; by destruct H1 as [->| ->]).
  assert (He2 : endswith (path_join path second) ".csv" = true)
    by (apply endswith_path_join; by destruct H2 as [->| ->]).
  unfold read_csv_folder. rewrite Hdir, Hlist.
  rewrite filter_cons_True by (by rewrite Hf1, He1).
  rewrite filter_cons_True by (by rewrite Hf2, He2).
  rewrite filter_nil. cbn [fmap list_fmap load_files].
  rewrite !entity_type_of_account by done.
  rewrite lookup_empty, Hread. cbn [rbind].
  rewrite lookup_insert_eq. by rewrite insert_empty.
Qed.
End LoaderProperties.

Lemma read_csv_folder_first_file_wins_witness :
  read_csv_folder data_isdir data_listdir data_isfile string unit
    data_read_csv "data" ∅ ∅
  = Ok {["Account" := accounts_table]}.
Proof.
  apply (read_csv_folder_first_file_wins data_isdir data_listdir data_isfile
           string unit data_read_csv "data" "Account-1.csv" "Account-2.csv"
           ∅ ∅ accounts_table); first [ reflexivity | by left ].
Defined.

(** * Further properties: failures, layouts, whole folders

    Where a property gives the value of a cell that pandas has built from
    the results of a function, it does so through [stored_as]: the value as
    it is when pandas is sure to keep it, a missing value for "no
    value". *)

(** ** Folding records into a map *)

Lemma unique_snoc (l : list PyKey) (k : PyKey) :
  unique (l ++ [k]) = if decide (k ∈ l) then unique l else unique l ++ [k].
Proof.
  induction l as [|x l IH].
  - case_decide as Hin; [by apply not_elem_of_nil in Hin | done].
  - change (unique ((x :: l) ++ [k]))
      with (x :: filter (fun y => y <> x) (unique (l ++ [k]))).
    rewrite IH. change (unique (x :: l))
      with (x :: filter (fun y => y <> x) (unique l)).
    destruct (decide (k ∈ l)) as [Hin|Hin].
    + rewrite decide_True by (by apply elem_of_cons; right). done.
    + rewrite filter_app.
      destruct (decide (k = x)) as [->|Hne].
      * rewrite decide_True by apply list_elem_of_here.
        rewrite (filter_none (fun y => y <> x) [x]).
        2:{ intros y ->%list_elem_of_singleton Hy. by apply Hy. }
        by rewrite app_nil_r.
      * rewrite decide_False.
        2:{ intros [?|?]%elem_of_cons; done. }
        rewrite (filter_all (fun y => y <> x) [k]); [done|].
        by intros y ->%list_elem_of_singleton.
Qed.

Lemma dict_keys_set {V} (d : list (PyKey * V)) (k : PyKey) (v : V) :
  dict_keys (dict_set d k v)
  = if decide (k ∈ dict_keys d) then dict_keys d else dict_keys d ++ [k].
Proof.
  unfold dict_keys. induction d as [|[k0 v0] d IH].
  - case_decide as Hin; [by apply not_elem_of_nil in Hin | done].
  - simpl. destruct (decide (k0 = k)) as [->|Hne].
    + rewrite decide_True by apply list_elem_of_here. done.
    + rewrite fmap_cons. simpl. rewrite IH.
      destruct (decide (k ∈ d.*1)) as [Hin|Hin].
      * rewrite decide_True by (by apply elem_of_cons; right). done.
      * rewrite decide_False; [done|].
        intros [?|?]%elem_of_cons; [congruence|done].
Qed.

Lemma reduce_records_spec (key_prop value_prop : string)
  (ds : list (list (string * PyVal))) (ks : list PyKey) :
  Forall2 (fun d k => hash_key (py_get d key_prop) = Ok k) ds ks ->
  exists acc,
    reduce (array_to_dict_reducer key_prop value_prop) (VDict <$> ds) []
    = Ok acc
    /\ dict_keys acc = unique ks
    /\ (forall i d k,
          ds !! i = Some d -> ks !! i = Some k ->
          (forall j, (i < j)%nat -> ks !! j <> Some k) ->
          dict_get acc k = Some (py_get d value_prop)).
Proof.
  revert ks. induction ds as [|d ds IH] using rev_ind; intros ks Hks.
  - apply Forall2_nil_inv_l in Hks as ->. exists []. by repeat split.
  - apply Forall2_app_inv_l in Hks as (ks0 & ks1 & Hks0 & Hks1 & ->).
    apply Forall2_cons_inv_l in Hks1 as (k & ks2 & Hk & Hnil & ->).
    apply Forall2_nil_inv_l in Hnil as ->.
    destruct (IH ks0 Hks0) as (acc & Hacc & Hkeys & Hget).
    exists (dict_set acc k (py_get d value_prop)).
    pose proof (Forall2_length _ _ _ Hks0) as Hlen.
    split; [|split].
    + rewrite fmap_app, reduce_app, Hacc. simpl. by rewrite Hk.
    + rewrite dict_keys_set, unique_snoc, Hkeys.
      destruct (decide (k ∈ ks0)) as [Hin|Hin].
      * rewrite decide_True by (by apply elem_of_unique). done.
      * rewrite decide_False by (by rewrite elem_of_unique). done.
    + intros i d' k' Hd' Hk' Hlast.
      destruct (decide (i < length ds)%nat) as [Hlt|Hge].
      * rewrite lookup_app_l in Hd' by done.
        rewrite lookup_app_l in Hk' by lia.
        assert (Hne : k <> k').
        { intros ->. apply (Hlast (length ks0)); [lia|].
          by rewrite list_lookup_middle. }
        rewrite dict_get_set_ne by done.
        apply (Hget i); [done..|].
        intros j Hj Hkj. apply (Hlast j Hj).
        by apply lookup_app_l_Some.
      * assert (i = length ds) as ->.
        { apply lookup_lt_Some in Hd'. rewrite length_app in Hd'.
          simpl in Hd'. lia. }
        rewrite list_lookup_middle in Hd' by done.
        rewrite list_lookup_middle in Hk' by done.
        injection Hd' as <-. injection Hk' as <-.
        apply dict_get_set_eq.
Qed.

(** A fold of the reducer over records whose key property holds a hashable
    value other than [nan] returns; the keys of the map it returns are the
    records' keys in the order in which they first appear; and under each
    key the map holds the value property of the last record that has this
    key.  ([nan] is left out: two [nan] are two keys to Python, and one
    here.) *)
Theorem reduce_records_last_wins (key_prop value_prop : string)
  (ds : list (list (string * PyVal))) (ks : list PyKey) :
  Forall2 (fun d k => hash_key (py_get d key_prop) = Ok k) ds ks ->
  Forall (fun k => k <> KNaN) ks ->
  exists acc,
    reduce (array_to_dict_reducer key_prop value_prop) (VDict <$> ds) []
    = Ok acc
    /\ dict_keys acc = unique ks
    /\ (forall i d k,
          ds !! i = Some d -> ks !! i = Some k ->
          (forall j, (i < j)%nat -> ks !! j <> Some k) ->
          dict_get acc k = Some (py_get d value_prop)).
Proof. intros Hks _. by apply reduce_records_spec. Qed.

Lemma reduce_records_last_wins_witness :
  exists acc,
    reduce (array_to_dict_reducer "Name" "Value")
      (VDict <$> [[("Name", VStr "a"); ("Value", VInt 1)];
                  [("Name", VStr "b"); ("Value", VInt 2)];
                  [("Name", VStr "a"); ("Value", VInt 3)]]) []
    = Ok acc
    /\ dict_keys acc = unique [KStr "a"; KStr "b"; KStr "a"]
    /\ (forall i d k,
          [[("Name", VStr "a"); ("Value", VInt 1)];
           [("Name", VStr "b"); ("Value", VInt 2)];
           [("Name", VStr "a"); ("Value", VInt 3)]] !! i = Some d ->
          [KStr "a"; KStr "b"; KStr "a"] !! i = Some k ->
          (forall j, (i < j)%nat -> [KStr "a"; KStr "b"; KStr "a"] !! j <> Some k) ->
          dict_get acc k = Some (py_get d "Value")).
Proof.
  apply (reduce_records_last_wins "Name" "Value").
  - repeat constructor.
  - repeat constructor; discriminate.
Defined.

(** ** A column the table does not have *)







(** The row exploder refuses a table in which a column label repeats, whatever
    the column it is asked to explode: it raises [ValueError] and the store
    is as it was. *)
Theorem explode_json_to_rows_repeated_label
  (literal_eval : string -> Result PyVal)
  (nested_to_record : PyVal -> option Z -> Result PyVal)
  (df : ref) (h : Store) (d : DataFrame) (c : PyKey) (max_level : option Z) :
  h !! df = Some d ->
  ~ NoDup (labels d) ->
  explode_json_to_rows literal_eval nested_to_record df c max_level h
  = (h, Raise ValueError).
Proof.
  intros Hd Hdup. unfold explode_json_to_rows, st_bind, deref, lift.
  rewrite Hd. unfold frame_explode.
  by rewrite bool_decide_eq_false_2.
Qed.

Lemma explode_json_to_rows_repeated_label_witness :
  explode_json_to_rows (literal_eval_of []) nested_to_record_flat 0%nat
    (KStr "Line") (Some 1) [repeated_ids]
  = ([repeated_ids], Raise ValueError).
Proof.
  apply (explode_json_to_rows_repeated_label (literal_eval_of [])
           nested_to_record_flat 0%nat [repeated_ids] repeated_ids
           (KStr "Line") (Some 1) eq_refl).
  compute_done.
Defined.

(** ** The one table the tuple expander writes to *)

Lemma changes_only_bind {A B} (t : ref) (m : M A) (k : A -> M B) :
  changes_only t m -> (forall a, changes_only t (k a)) ->
  changes_only t (st_bind m k).
Proof.
  intros Hm Hk h r x Hne Hr. unfold st_bind. specialize (Hm h r x Hne Hr).
  destruct (m h) as [h1 [a|e]]; simpl in *; [|done].
  by apply Hk.
Qed.

Lemma changes_only_allocates {A} (t : ref) (m : M A) :
  allocates_only m -> changes_only t m.
Proof.
  intros Hm h r x _ Hr. eapply prefix_lookup_Some; [exact Hr | apply Hm].
Qed.

Lemma changes_only_setitem (t : ref) (c : PyKey) (s : Series) :
  changes_only t (df_setitem t c s).
Proof.
  unfold df_setitem. apply changes_only_bind.
  - apply changes_only_allocates, allocates_only_deref.
  - intros d h r x Hne Hr. simpl. by rewrite list_lookup_insert_ne.
Qed.

Lemma json_tuple_to_cols_changes_only literal_eval (t : ref) c cfg :
  changes_only t (json_tuple_to_cols literal_eval t c cfg).
Proof.
  unfold json_tuple_to_cols, df_getitem, df_drop.
  repeat first
    [ apply changes_only_setitem
    | apply changes_only_bind; [|intros ?]
    | apply changes_only_allocates; solve_allocates_only; fail ].
Qed.

Lemma rename_selection_fresh (df : ref) (target : TargetColumns)
  (h h1 : Store) (t : ref) :
  (if target is TList _ then True else if target is TDict _ then True
   else False) ->
  rename df target h = (h1, Ok t) -> t = length h.
Proof.
  intros Htarget Hrun. destruct target as [|l|m|]; try done; simpl in Hrun.
  - by apply df_getitem_list_ok in Hrun as (? & ? & _ & _ & _ & ->).
  - run_ok Hrun. by apply alloc_ok in Hrun as [_ ->].
Qed.

(** Renaming first and expanding the result: when the renamer is given a
    list or a mapping it hands the tuple expander a new table, and the
    caller's table is as it was whatever the outcome; when it is given
    neither it hands back the caller's own table, and the tuple expander
    writes its two columns into it. *)
Theorem rename_then_json_tuple_to_cols
  (literal_eval : string -> Result PyVal) (df : ref) (h : Store)
  (d : DataFrame) (c : PyKey) (cfg : ColConfig) :
  h !! df = Some d ->
  (forall l,
     ((t <~ rename df (TList l) ;; json_tuple_to_cols literal_eval t c cfg)
        h).1 !! df = Some d)
  /\ (forall m,
        ((t <~ rename df (TDict m) ;; json_tuple_to_cols literal_eval t c cfg)
           h).1 !! df = Some d)
  /\ (forall target h' r,
        target = TNone \/ target = TOther ->
        (t <~ rename df target ;; json_tuple_to_cols literal_eval t c cfg) h
        = (h', Ok r) ->
        exists ks vs,
          h' !! df
          = Some (frame_setitem (frame_setitem d (cols_key_prop cfg) ks)
                    (cols_value_prop cfg) vs)).
Proof.
  intros Hd.
  assert (Hsel : forall target,
    (if target is TList _ then True else if target is TDict _ then True
     else False) ->
    ((t <~ rename df target ;; json_tuple_to_cols literal_eval t c cfg)
       h).1 !! df = Some d).
  { intros target Htarget. unfold st_bind.
    pose proof (allocates_only_preserves _ (rename_allocates_only df target)
                  h df d Hd) as Hkept.
    destruct (rename df target h) as [h1 [t|e]] eqn:Hrun; simpl in Hkept;
      [|done].
    apply rename_selection_fresh in Hrun as ->; [|done].
    apply json_tuple_to_cols_changes_only; [|done].
    apply lookup_lt_Some in Hd. lia. }
  split; [|split].
  - intros l. by apply Hsel.
  - intros m. by apply Hsel.
  - intros target h' r Htarget Hrun.
    assert (rename df target = st_ret df) as Hret
      by (by destruct Htarget as [-> | ->]).
    unfold st_bind in Hrun. rewrite Hret in Hrun. simpl in Hrun.
    destruct (json_tuple_to_cols_run _ _ _ _ _ _ _ _ Hd Hrun)
      as (s1 & ks & s2 & vs & out & _ & _ & _ & _ & _ & -> & _).
    exists ks, vs.
    assert (Hlt : (df < length h)%nat) by (by eapply lookup_lt_Some).
    rewrite lookup_app_l by (by rewrite length_insert).
    by apply list_lookup_insert_eq.
Qed.

Lemma rename_then_json_tuple_to_cols_witness :
  ((t <~ rename 0%nat (TList [KStr "Ref"]) ;;
    json_tuple_to_cols (literal_eval_of []) t (KStr "Ref") default_col_config)
     [discounts]).1 !! 0%nat = Some discounts
  /\ exists ks vs,
       [discounts_written; discounts_expanded] !! 0%nat
       = Some (frame_setitem (frame_setitem discounts (KStr "Name") ks)
                 (KStr "Value") vs).
Proof.
  destruct (rename_then_json_tuple_to_cols (literal_eval_of []) 0%nat
              [discounts] discounts (KStr "Ref") default_col_config eq_refl)
    as (Hlist & _ & Hnone).
  split; [apply Hlist|].
  apply (Hnone TNone [discounts_written; discounts_expanded] 1%nat).
  - by left.
  - vm_compute. reflexivity.
Defined.

(** ** Tuple expander: all rows, the layout of the columns, failures *)

Lemma labels_setitem_eq (d : DataFrame) (c : PyKey) (s : Series) :
  labels (frame_setitem d c s)
  = if decide (c ∈ labels d) then labels d else labels d ++ [c].
Proof.
  unfold labels at 1, frame_setitem. simpl.
  destruct (decide (c ∈ labels d)) as [Hin|Hin].
  - rewrite bool_decide_eq_true_2 by done.
    unfold labels. rewrite <- list_fmap_compose. apply list_fmap_ext.
    intros i col _. simpl. by destruct (decide (col.1 = c)).
  - rewrite bool_decide_eq_false_2 by done.
    unfold labels. by rewrite fmap_app.
Qed.

Lemma labels_drop_filter (d d' : DataFrame) (c : PyKey) :
  frame_drop d c = Ok d' -> labels d' = filter (fun c' => c' <> c) (labels d).
Proof.
  intros (_ & _ & Hcols)%frame_drop_inv. unfold labels. rewrite Hcols.
  clear Hcols. induction (df_columns d) as [|col cols IH]; [done|].
  rewrite fmap_cons, !filter_cons.
  destruct (decide (col.1 <> c)); [rewrite fmap_cons|]; by rewrite IH.
Qed.



Lemma st_bind_run {A B} (m : M A) (k : A -> M B) (h h1 : Store) (a : A) :
  m h = (h1, Ok a) -> st_bind m k h = k a h1.
Proof. intros Hm. unfold st_bind. by rewrite Hm. Qed.







(** The condition on the key column is needed: when the key column is the
    source column itself, the key pass overwrites the tuples with their
    names, the value pass then fails on the names, and the caller's table
    stays overwritten. *)
Example json_tuple_to_cols_key_column_is_source :
  json_tuple_to_cols (literal_eval_of []) 0%nat (KStr "Ref")
    {| cols_key_prop := KStr "Ref"; cols_value_prop := KStr "Value";
       look_up_key_prop := "name"; look_up_value_prop := "value" |}
    [discounts]
  = ([{| df_index := [KInt 0];
         df_columns := [(KStr "Doc", [VStr "A"]);
                        (KStr "Ref", [VStr "Discount"])] |}],
     Raise ValueError).
Proof. vm_compute. reflexivity. Qed.

Lemma stored_as_self (v : PyVal) : stored_as v (Some v).
Proof. exists v. by repeat split. Qed.

(** Every row of a returning call: when the key column, the value column
    and the source column have three different names, the returned table
    has the row labels of the table passed in, and in each row the key
    column and the value column hold what [get_value] extracts from the
    row's source cell under the two look-up properties, as pandas stores
    it: as it is when it is text, an array, an object or an integer that a
    float represents exactly, and as a missing value when it is "no
    value". *)
Theorem json_tuple_to_cols_every_row
  (literal_eval : string -> Result PyVal) (df : ref) (c : PyKey)
  (cfg : ColConfig) (h h' : Store) (r : ref) (d : DataFrame) :
  h !! df = Some d ->
  cols_key_prop cfg <> cols_value_prop cfg ->
  cols_key_prop cfg <> c ->
  cols_value_prop cfg <> c ->
  json_tuple_to_cols literal_eval df c cfg h = (h', Ok r) ->
  exists out,
    h' !! r = Some out
    /\ df_index out = df_index d
    /\ (forall i y, cell d c i = Some y ->
          exists k v,
            get_value literal_eval y (look_up_key_prop cfg) = Ok k
            /\ get_value literal_eval y (look_up_value_prop cfg) = Ok v
            /\ stored_as k (cell out (cols_key_prop cfg) i)
            /\ stored_as v (cell out (cols_value_prop cfg) i)).
Proof.
  intros Hd HKV HKc HVc Hrun.
  destruct (json_tuple_to_cols_run _ _ _ _ _ _ _ _ Hd Hrun)
    as (s1 & ks & s2 & vs & out & Hs1 & Hks & Hs2 & Hvs & Hout & -> & ->).
  exists out. split.
  { rewrite <- (length_insert h df
                  (frame_setitem (frame_setitem d (cols_key_prop cfg) ks)
                     (cols_value_prop cfg) vs)).
    apply lookup_alloc. }
  split.
  { by apply frame_drop_inv in Hout as (_ & -> & _). }
  apply series_apply_inv in Hks as [Hks _].
  apply series_apply_inv in Hvs as [Hvs _].
  intros i y Hcell.
  pose proof Hcell as Hcell1.
  rewrite (frame_getitem_cell _ _ _ i Hs1) in Hcell1.
  destruct (mapM_lookup _ _ _ _ _ Hks Hcell1) as (k & Hk & Hgk).
  pose proof Hcell as Hcell2.
  rewrite <- (cell_setitem_ne d (cols_key_prop cfg) c ks) in Hcell2
    by done.
  rewrite (frame_getitem_cell _ _ _ i Hs2) in Hcell2.
  destruct (mapM_lookup _ _ _ _ _ Hvs Hcell2) as (v & Hv & Hgv).
  exists k, v. split; [done|]. split; [done|]. split.
  - rewrite (cell_drop_ne _ _ _ _ _ Hout) by done.
    rewrite cell_setitem_ne by done. rewrite cell_setitem_eq, Hk.
    apply stored_as_self.
  - rewrite (cell_drop_ne _ _ _ _ _ Hout) by done.
    rewrite cell_setitem_eq, Hv. apply stored_as_self.
Qed.

Lemma json_tuple_to_cols_every_row_witness :
  exists out,
    [discounts_written; discounts_expanded] !! 1%nat = Some out
    /\ df_index out = df_index discounts
    /\ (forall i y, cell discounts (KStr "Ref") i = Some y ->
          exists k v,
            get_value (literal_eval_of []) y "name" = Ok k
            /\ get_value (literal_eval_of []) y "value" = Ok v
            /\ stored_as k (cell out (KStr "Name") i)
            /\ stored_as v (cell out (KStr "Value") i)).
Proof.
  apply (json_tuple_to_cols_every_row (literal_eval_of []) 0%nat (KStr "Ref")
           default_col_config [discounts]
           [discounts_written; discounts_expanded] 1%nat discounts);
    first [ reflexivity | discriminate ].
Defined.

(** The layout of the returned table: the columns other than the source
    column, the key column and the value column keep their cells; when the
    two target names are new to the table, the returned table has the old
    columns without the source column, in their order, then the key column,
    then the value column; when both already name a column, the columns
    keep their places. *)
Theorem json_tuple_to_cols_layout
  (literal_eval : string -> Result PyVal) (df : ref) (c : PyKey)
  (cfg : ColConfig) (h h' : Store) (r : ref) (d : DataFrame) :
  h !! df = Some d ->
  json_tuple_to_cols literal_eval df c cfg h = (h', Ok r) ->
  exists out,
    h' !! r = Some out
    /\ (forall c' i,
          c' <> c -> c' <> cols_key_prop cfg -> c' <> cols_value_prop cfg ->
          cell out c' i = cell d c' i)
    /\ (cols_key_prop cfg ∉ labels d -> cols_value_prop cfg ∉ labels d ->
        cols_key_prop cfg <> cols_value_prop cfg ->
        labels out
        = filter (fun c' => c' <> c) (labels d)
          ++ [cols_key_prop cfg; cols_value_prop cfg])
    /\ (cols_key_prop cfg ∈ labels d -> cols_value_prop cfg ∈ labels d ->
        labels out = filter (fun c' => c' <> c) (labels d)).
Proof.
  intros Hd Hrun.
  destruct (json_tuple_to_cols_run _ _ _ _ _ _ _ _ Hd Hrun)
    as (s1 & ks & s2 & vs & out & Hs1 & Hks & Hs2 & Hvs & Hout & -> & ->).
  exists out. split.
  { rewrite <- (length_insert h df
                  (frame_setitem (frame_setitem d (cols_key_prop cfg) ks)
                     (cols_value_prop cfg) vs)).
    apply lookup_alloc. }
  assert (Hc : c ∈ labels d).
  { apply labels_columns_named.
    apply frame_getitem_inv in Hs1 as (col & -> & _). done. }
  split; [|split].
  - intros c' i H1 H2 H3.
    rewrite (cell_drop_ne _ _ _ _ _ Hout) by done.
    by rewrite !cell_setitem_ne.
  - intros HK HV HKV.
    rewrite (labels_drop_filter _ _ _ Hout), !labels_setitem_eq.
    rewrite (decide_False (P := cols_key_prop cfg ∈ labels d)) by done.
    rewrite decide_False.
    2:{ intros [?|Hx]%elem_of_app; [done|].
        apply list_elem_of_singleton in Hx. congruence. }
    rewrite <- app_assoc, filter_app. f_equal.
    apply filter_all. intros x Hx ->.
    apply elem_of_cons in Hx as [->|Hx]; [done|].
    apply list_elem_of_singleton in Hx as ->. done.
  - intros HK HV.
    rewrite (labels_drop_filter _ _ _ Hout), !labels_setitem_eq.
    rewrite (decide_True (P := cols_key_prop cfg ∈ labels d)) by done.
    by rewrite decide_True.
Qed.

Lemma json_tuple_to_cols_layout_witness :
  exists out,
    [discounts_written; discounts_expanded] !! 1%nat = Some out
    /\ (forall c' i,
          c' <> KStr "Ref" -> c' <> KStr "Name" -> c' <> KStr "Value" ->
          cell out c' i = cell discounts c' i)
    /\ (KStr "Name" ∉ labels discounts -> KStr "Value" ∉ labels discounts ->
        KStr "Name" <> KStr "Value" ->
        labels out
        = filter (fun c' => c' <> KStr "Ref") (labels discounts)
          ++ [KStr "Name"; KStr "Value"])
    /\ (KStr "Name" ∈ labels discounts -> KStr "Value" ∈ labels discounts ->
        labels out = filter (fun c' => c' <> KStr "Ref") (labels discounts)).
Proof.
  apply (json_tuple_to_cols_layout (literal_eval_of []) 0%nat (KStr "Ref")
           default_col_config [discounts]
           [discounts_written; discounts_expanded] 1%nat discounts);
    reflexivity.
Defined.

(** ** Column exploder: the columns and the cells of the returned table *)

Lemma select_self_NoDup (cols : list (PyKey * list PyVal)) :
  NoDup cols.*1 ->
  cols.*1 ≫= (fun c => filter (fun col => col.1 = c) cols) = cols.
Proof.
  induction cols as [|col cols IH]; intros Hnd; [done|].
  rewrite fmap_cons in Hnd. apply NoDup_cons in Hnd as [Hnotin Hnd].
  rewrite fmap_cons. simpl. rewrite filter_cons_True by done.
  rewrite (filter_none (fun col0 : PyKey * list PyVal => col0.1 = col.1)
             cols).
  2:{ intros x Hx Heq. apply Hnotin. apply list_elem_of_fmap. eauto. }
  simpl. f_equal. rewrite <- (IH Hnd) at 2. apply bind_ext_elem.
  intros c Hc. rewrite filter_cons_False; [done|].
  intros Heq. apply Hnotin. by rewrite Heq.
Qed.

Lemma frame_select_self (d : DataFrame) :
  NoDup (labels d) ->
  labels d ≫= (fun c' => columns_named c' d) = df_columns d.
Proof. apply select_self_NoDup. Qed.

(** In a join over the same pairwise distinct row labels, the columns of
    the left table keep their cells. *)
Lemma cell_join_left (l r out : DataFrame) (c : PyKey) (i : nat) :
  NoDup (df_index l) -> df_index r = df_index l -> rectangular l ->
  frame_join l r = Ok out -> c ∈ labels l ->
  cell out c i = cell l c i.
Proof.
  intros Hnd Hidx Hrect Hjoin Hc. unfold frame_join in Hjoin.
  case_bool_decide as Hover; [discriminate|]. injection Hjoin as <-.
  rewrite Hidx, join_indexer_self by done.
  set (ixs := imap (fun i (_ : PyKey) => (i, Some i)) (df_index l)).
  apply labels_columns_named in Hc.
  unfold cell, columns_named in *. simpl. rewrite filter_app.
  destruct (filter (fun col => col.1 = c) (df_columns l))
    as [|col rest] eqn:Hcols; [done|]. clear Hc.
  assert (Hin : col ∈ df_columns l).
  { assert (Hx : col ∈ filter (fun col : PyKey * list PyVal => col.1 = c)
                         (df_columns l))
      by (rewrite Hcols; apply list_elem_of_here).
    by apply list_elem_of_filter in Hx as [_ ?]. }
  assert (Hlen : length col.2 = length (df_index l)).
  { unfold rectangular in Hrect. rewrite Forall_forall in Hrect. auto. }
  assert (Hfst :
    filter (fun col0 : PyKey * list PyVal => col0.1 = c)
      ((fun col0 => (col0.1, take_opt ((Some ∘ fst) <$> ixs) col0.2))
         <$> df_columns l)
    = (fun col0 => (col0.1, take_opt ((Some ∘ fst) <$> ixs) col0.2))
        <$> filter (fun col0 : PyKey * list PyVal => col0.1 = c)
              (df_columns l)).
  { clear. induction (df_columns l) as [|x xs IH]; [done|].
    rewrite fmap_cons, !filter_cons. simpl.
    destruct (decide (x.1 = c)); [rewrite fmap_cons|]; by rewrite IH. }
  rewrite Hfst, Hcols. simpl.
  destruct (decide (i < length (df_index l))%nat) as [Hlt|Hge].
  - erewrite take_opt_lookup.
    2:{ rewrite list_lookup_fmap. unfold ixs.
        rewrite (lookup_imap_const (fun j => (j, Some j))) by done. done. }
    destruct (lookup_lt_is_Some_2 col.2 i) as [v Hv]; [lia|].
    simpl. by rewrite Hv.
  - rewrite (lookup_ge_None_2 col.2) by lia.
    apply lookup_ge_None_2. unfold take_opt.
    rewrite !length_fmap. unfold ixs. rewrite length_imap. lia.
Qed.

(** The cell of a column built from the records, whether or not the row's
    record has the key. *)
Lemma cell_join_records_any (left : DataFrame) (rows : list Fields)
  (out : DataFrame) (k : PyKey) (i : nat) (rec : Fields) :
  NoDup (df_index left) ->
  length rows = length (df_index left) ->
  frame_join left
    {| df_index := df_index left;
       df_columns :=
         (fun c => (c, record_field c <$> rows))
           <$> unique (concat (dict_keys <$> rows)) |} = Ok out ->
  rows !! i = Some rec ->
  k ∈ unique (concat (dict_keys <$> rows)) ->
  cell out k i = Some (record_field k rec).
Proof.
  intros Hnd Hlen Hjoin Hi Hkeys. unfold frame_join in Hjoin.
  case_bool_decide as Hover; [discriminate|]. injection Hjoin as <-.
  simpl in *. rewrite join_indexer_self in * by done.
  set (ixs := imap (fun i (_ : PyKey) => (i, Some i)) (df_index left)).
  rewrite (cell_of_all _ k i
             (k, take_opt (snd <$> ixs) (record_field k <$> rows))).
  - simpl. assert (Hlt : (i < length (df_index left))%nat).
    { rewrite <- Hlen. by eapply lookup_lt_Some. }
    erewrite take_opt_lookup.
    + by rewrite list_lookup_fmap, Hi.
    + rewrite list_lookup_fmap. unfold ixs.
      by rewrite (lookup_imap_const (fun j => (j, Some j))).
  - intros Hnil.
    assert (Hx : (k, take_opt (snd <$> ixs) (record_field k <$> rows))
                   ∈ columns_named k
                       {| df_index := omap (fun p => df_index left !! p.1) ixs;
                          df_columns :=
                            ((fun col => (col.1,
                                          take_opt ((Some ∘ fst) <$> ixs) col.2))
                               <$> df_columns left)
                            ++ ((fun col => (col.1,
                                             take_opt (snd <$> ixs) col.2))
                                  <$> ((fun c => (c, record_field c <$> rows))
                                         <$> unique
                                               (concat (dict_keys <$> rows)))) |}).
    { apply columns_named_elem. split; [done|]. simpl.
      apply elem_of_app. right. apply list_elem_of_fmap.
      exists (k, record_field k <$> rows). split; [done|].
      apply list_elem_of_fmap. by exists k. }
    rewrite Hnil in Hx. by apply not_elem_of_nil in Hx.
  - intros col [Hc Hin]%columns_named_elem. simpl in Hin.
    apply elem_of_app in Hin as [Hin|Hin].
    + destruct Hover. apply Exists_exists. exists k. split.
      * apply list_elem_of_fmap in Hin as (col0 & -> & Hin0).
        simpl in Hc. subst k. unfold labels. apply list_elem_of_fmap. eauto.
      * unfold labels. simpl. rewrite <- list_fmap_compose.
        apply list_elem_of_fmap. by exists k.
    + apply list_elem_of_fmap in Hin as (col0 & -> & Hin0).
      apply list_elem_of_fmap in Hin0 as (k0 & -> & Hk0).
      simpl in *. by subst k0.
Qed.

Lemma labels_records (idx : list PyKey) (rows : list Fields) :
  labels {| df_index := idx;
            df_columns :=
              (fun c => (c, record_field c <$> rows))
                <$> unique (concat (dict_keys <$> rows)) |}
  = unique (concat (dict_keys <$> rows)).
Proof.
  unfold labels. simpl. rewrite <- list_fmap_compose.
  rewrite <- (list_fmap_id (unique _)) at 2. by apply list_fmap_ext.
Qed.

Lemma NoDup_unique (l : list PyKey) : NoDup (unique l).
Proof.
  induction l as [|x l IH]; simpl; [constructor|].
  apply NoDup_cons. split; [|by apply NoDup_filter].
  intros [Hne _]%list_elem_of_filter. by apply Hne.
Qed.

Lemma frame_join_disjoint (l r out : DataFrame) (k : PyKey) :
  frame_join l r = Ok out -> k ∈ labels l -> k ∉ labels r.
Proof.
  unfold frame_join. case_bool_decide as Hover; [discriminate|].
  intros _ Hl Hr. apply Hover, Exists_exists. eauto.
Qed.

(** The columns of the table the column exploder returns, on a table whose
    column labels are pairwise distinct: first the columns of the table
    passed in without the source column, in their order; then one column
    for each key of the records that [json_to_series] builds from the
    source cells.  The labels of the returned table are again pairwise
    distinct.  On a table without rows there is no record, and the source
    column itself comes back in last place. *)
Theorem explode_json_to_cols_columns
  (literal_eval : string -> Result PyVal) (df : ref) (c : PyKey)
  (reducer : option Reducer) (h h' : Store) (r : ref) (d : DataFrame) :
  h !! df = Some d ->
  NoDup (labels d) ->
  explode_json_to_cols literal_eval df c reducer h = (h', Ok r) ->
  exists out vals rows news,
    h' !! r = Some out
    /\ (c, vals) ∈ df_columns d
    /\ mapM (json_to_series literal_eval (default default_reducer reducer))
         vals = Ok rows
    /\ labels out = filter (fun c' => c' <> c) (labels d) ++ news
    /\ NoDup (labels out)
    /\ match vals with
       | [] => news = [c]
       | _ :: _ => forall k, k ∈ news <-> k ∈ concat (dict_keys <$> rows)
       end.
Proof.
  intros Hd Hnd Hrun.
  destruct (explode_json_to_cols_run _ _ _ _ _ _ _ _ Hd Hrun)
    as (col & dropped & new_cols & out & Hcol & Hdrop & Hnew & Hjoin
        & -> & ->).
  rewrite frame_select_self in Hdrop by done.
  unfold series_apply_records in Hnew.
  apply rbind_ok in Hnew as (rows & Hrows & Hnew). simpl in Hrows, Hnew.
  assert (Hlabels : labels dropped = filter (fun c' => c' <> c) (labels d)).
  { by rewrite (labels_drop_filter _ _ _ Hdrop). }
  assert (Hjoin' : exists right,
            frame_join dropped right = Ok out
            /\ NoDup (labels right)
            /\ match col.2 with
               | [] => labels right = [c]
               | _ :: _ =>
                   forall k, k ∈ labels right
                             <-> k ∈ concat (dict_keys <$> rows)
               end).
  { pose proof (mapM_length _ _ _ Hrows) as Hlen.
    destruct rows as [|row0 rows']; injection Hnew as <-.
    - destruct col.2 as [|v vs]; [|done]. simpl in Hjoin.
      eexists. split; [exact Hjoin|]. split; [|done].
      apply NoDup_singleton.
    - destruct col.2 as [|v vs]; [done|].
      cbv beta iota delta [frame_join_applied] in Hjoin.
      exists {| df_index := df_index d;
                df_columns :=
                  (fun c0 => (c0, record_field c0 <$> row0 :: rows'))
                    <$> unique (concat (dict_keys <$> row0 :: rows')) |}.
      split; [exact Hjoin|].
      rewrite (labels_records (df_index d) (row0 :: rows')).
      split; [apply NoDup_unique|]. intros k. apply elem_of_unique. }
  destruct Hjoin' as (right & Hj & Hndr & Hnews).
  exists out, col.2, rows, (labels right).
  split; [apply lookup_alloc|]. split.
  { assert (Hin : col ∈ columns_named c d)
      by (rewrite Hcol; apply list_elem_of_here).
    apply columns_named_elem in Hin as [<- Hin]. by destruct col. }
  split; [done|]. split.
  { by rewrite (frame_join_labels _ _ _ Hj), Hlabels. }
  split; [|done].
  rewrite (frame_join_labels _ _ _ Hj). apply NoDup_app.
  split; [|split; [|done]].
  - rewrite Hlabels. by apply NoDup_filter.
  - intros k. by apply (frame_join_disjoint dropped right out).
Qed.

Lemma explode_json_to_cols_columns_witness :
  exists out vals rows news,
    [customers; customers_exploded] !! 1%nat = Some out
    /\ (KStr "CustomField", vals) ∈ df_columns customers
    /\ mapM (json_to_series (literal_eval_of [])
               (default default_reducer None)) vals = Ok rows
    /\ labels out
       = filter (fun c' => c' <> KStr "CustomField") (labels customers)
         ++ news
    /\ NoDup (labels out)
    /\ match vals with
       | [] => news = [KStr "CustomField"]
       | _ :: _ => forall k, k ∈ news <-> k ∈ concat (dict_keys <$> rows)
       end.
Proof.
  apply (explode_json_to_cols_columns (literal_eval_of []) 0%nat
           (KStr "CustomField") None [customers]
           [customers; customers_exploded] 1%nat customers eq_refl).
  - compute_done.
  - vm_compute. reflexivity.
Defined.

Lemma explode_json_to_cols_cells_spec
  (literal_eval : string -> Result PyVal) (df : ref) (c : PyKey)
  (reducer : option Reducer) (h h' : Store) (r : ref) (d : DataFrame) :
  h !! df = Some d ->
  rectangular d ->
  NoDup (df_index d) ->
  NoDup (labels d) ->
  explode_json_to_cols literal_eval df c reducer h = (h', Ok r) ->
  exists out,
    h' !! r = Some out
    /\ df_index out = df_index d
    /\ (forall c' i, c' ∈ labels d -> c' <> c -> cell out c' i = cell d c' i)
    /\ (forall i y, cell d c i = Some y ->
          exists rec,
            json_to_series literal_eval (default default_reducer reducer) y
            = Ok rec
            /\ (forall k, k ∈ dict_keys rec -> k ∈ labels out)
            /\ (forall k, k ∈ labels out -> (k ∈ labels d -> k = c) ->
                  cell out k i = Some (record_field k rec))).
Proof.
  intros Hd Hrect Hndi Hndl Hrun.
  destruct (explode_json_to_cols_run _ _ _ _ _ _ _ _ Hd Hrun)
    as (col & dropped & new_cols & out & Hcol & Hdrop & Hnew & Hjoin
        & -> & ->).
  rewrite frame_select_self in Hdrop by done.
  assert (Hcells : forall j, cell d c j = col.2 !! j).
  { intros j. unfold cell. by rewrite Hcol. }
  assert (Hcell_child : forall c' i,
    cell {| df_index := df_index d; df_columns := df_columns d |} c' i
    = cell d c' i) by done.
  pose proof (frame_drop_inv _ _ _ Hdrop) as (_ & Hidx & Hdcols).
  simpl in Hidx, Hdcols.
  assert (Hrect' : rectangular dropped).
  { unfold rectangular in *. rewrite Hidx, Hdcols.
    rewrite Forall_forall in Hrect. apply Forall_forall.
    intros x [_ Hx]%list_elem_of_filter. auto. }
  assert (Hlabels : labels dropped = filter (fun c' => c' <> c) (labels d)).
  { by rewrite (labels_drop_filter _ _ _ Hdrop). }
  unfold series_apply_records in Hnew.
  apply rbind_ok in Hnew as (rows & Hrows & Hnew). simpl in Hrows, Hnew.
  assert (Hlen : length rows = length (df_index dropped)).
  { rewrite (mapM_length _ _ _ Hrows), Hidx.
    unfold rectangular in Hrect. rewrite Forall_forall in Hrect.
    apply Hrect. apply (columns_named_elem c).
    rewrite Hcol. apply list_elem_of_here. }
  rewrite <- Hidx in Hndi.
  assert (Hjoin' : exists right,
            df_index right = df_index dropped
            /\ frame_join dropped right = Ok out
            /\ (rows <> [] ->
                right = {| df_index := df_index dropped;
                           df_columns :=
                             (fun c0 => (c0, record_field c0 <$> rows))
                               <$> unique (concat (dict_keys <$> rows)) |})).
  { destruct rows as [|row0 rows']; injection Hnew as <-;
      cbv beta iota delta [frame_join_applied] in Hjoin.
    - simpl in Hjoin. eexists. split; [|split; [exact Hjoin|done]]. by simpl.
    - eexists. split; [|split; [exact Hjoin|]]; [by simpl|].
      intros _. by rewrite Hidx. }
  destruct Hjoin' as (right & Hridx & Hj & Hright).
  exists out. split; [apply lookup_alloc|]. split; [|split].
  - rewrite <- Hidx. by apply (frame_join_index dropped right out).
  - intros c' i Hc' Hne.
    rewrite (cell_join_left dropped right out c' i); try done.
    + rewrite (cell_drop_ne _ _ _ _ _ Hdrop) by done. apply Hcell_child.
    + rewrite Hlabels. by apply list_elem_of_filter.
  - intros i y Hy. rewrite Hcells in Hy.
    destruct (mapM_lookup _ _ _ _ _ Hrows Hy) as (rec & Hrec & Hf).
    exists rec. split; [done|].
    assert (Hne : rows <> []) by (intros ->; done).
    specialize (Hright Hne). subst right.
    split.
    { intros k Hk. rewrite (frame_join_labels _ _ _ Hj), labels_records.
      apply elem_of_app. right.
      apply elem_of_unique, elem_of_concat. exists (dict_keys rec).
      split; [done|]. apply list_elem_of_fmap. exists rec. split; [done|].
      by eapply list_elem_of_lookup_2. }
    intros k Hk Hnew'.
    apply (cell_join_records_any dropped rows out k i rec); try done.
    rewrite (frame_join_labels _ _ _ Hj), labels_records in Hk.
    apply elem_of_app in Hk as [Hk|Hk]; [|done].
    rewrite Hlabels in Hk. apply list_elem_of_filter in Hk as [Hkc Hk].
    by destruct Hkc; apply Hnew'.
Qed.

(** The cells of the table the column exploder returns, on a table with one
    value per row in every column, pairwise distinct row labels and
    pairwise distinct column labels: the row labels are those of the table
    passed in; every column other than the source column keeps its cells;
    and in each row, every key of the row's record is a column, and a
    column that comes from the records holds [nan] when the row's record
    lacks the key, and otherwise the value the record has under that key,
    as pandas stores it: as it is when it is text, an array, an object or
    an integer that a float represents exactly, and as a missing value when
    it is "no value". *)
Theorem explode_json_to_cols_cells
  (literal_eval : string -> Result PyVal) (df : ref) (c : PyKey)
  (reducer : option Reducer) (h h' : Store) (r : ref) (d : DataFrame) :
  h !! df = Some d ->
  rectangular d ->
  NoDup (df_index d) ->
  NoDup (labels d) ->
  explode_json_to_cols literal_eval df c reducer h = (h', Ok r) ->
  exists out,
    h' !! r = Some out
    /\ df_index out = df_index d
    /\ (forall c' i, c' ∈ labels d -> c' <> c -> cell out c' i = cell d c' i)
    /\ (forall i y, cell d c i = Some y ->
          exists rec,
            json_to_series literal_eval (default default_reducer reducer) y
            = Ok rec
            /\ (forall k, k ∈ dict_keys rec -> k ∈ labels out)
            /\ (forall k, k ∈ labels out -> (k ∈ labels d -> k = c) ->
                  match dict_get rec k with
                  | Some v => stored_as v (cell out k i)
                  | None => cell out k i = Some VNaN
                  end)).
Proof.
  intros Hd Hrect Hndi Hndl Hrun.
  destruct (explode_json_to_cols_cells_spec _ _ _ _ _ _ _ _
              Hd Hrect Hndi Hndl Hrun)
    as (out & Hout & Hidx & Hold & Hrows).
  exists out. split; [done|]. split; [done|]. split; [done|].
  intros i y Hy. destruct (Hrows i y Hy) as (rec & Hrec & Hkeys & Hcells).
  exists rec. split; [done|]. split; [done|].
  intros k Hk Hnew. rewrite (Hcells k Hk Hnew). unfold record_field.
  destruct (dict_get rec k); [apply stored_as_self | done].
Qed.

Lemma explode_json_to_cols_cells_witness :
  exists out,
    [customers; customers_exploded] !! 1%nat = Some out
    /\ df_index out = df_index customers
    /\ (forall c' i, c' ∈ labels customers -> c' <> KStr "CustomField" ->
          cell out c' i = cell customers c' i)
    /\ (forall i y, cell customers (KStr "CustomField") i = Some y ->
          exists rec,
            json_to_series (literal_eval_of [])
              (default default_reducer None) y = Ok rec
            /\ (forall k, k ∈ dict_keys rec -> k ∈ labels out)
            /\ (forall k, k ∈ labels out ->
                  (k ∈ labels customers -> k = KStr "CustomField") ->
                  match dict_get rec k with
                  | Some v => stored_as v (cell out k i)
                  | None => cell out k i = Some VNaN
                  end)).
Proof.
  apply (explode_json_to_cols_cells (literal_eval_of []) 0%nat
           (KStr "CustomField") None [customers]
           [customers; customers_exploded] 1%nat customers eq_refl).
  - unfold rectangular. repeat constructor.
  - compute_done.
  - compute_done.
  - vm_compute. reflexivity.
Defined.

(** ** Row exploder: the rows and columns of the returned table, and the
    cells it cannot flatten *)

Lemma filter_label_fmap (F : PyKey * list PyVal -> PyKey * list PyVal)
  (c : PyKey) (cols : list (PyKey * list PyVal)) :
  (forall col, (F col).1 = col.1) ->
  filter (fun col : PyKey * list PyVal => col.1 = c) (F <$> cols)
  = F <$> filter (fun col : PyKey * list PyVal => col.1 = c) cols.
Proof.
  intros HF. induction cols as [|x xs IH]; [done|].
  rewrite fmap_cons, !filter_cons, HF.
  destruct (decide (x.1 = c)); [rewrite fmap_cons|]; by rewrite IH.
Qed.



(** What [df.explode(c)] hands back when it returns. *)
Lemma frame_explode_inv (d src : DataFrame) (c : PyKey) :
  frame_explode d c = Ok src ->
  exists col,
    NoDup (labels d)
    /\ columns_named c d = [col]
    /\ labels src = labels d
    /\ df_index src
       = repeat_rows ((fun v => length (explode_cell v)) <$> col.2)
           (df_index d)
    /\ columns_named c src = [(c, concat (explode_cell <$> col.2))].
Proof.
  unfold frame_explode. case_bool_decide as Hnd; [|discriminate].
  intros (s & Hs & [= <-])%rbind_ok.
  apply frame_getitem_inv in Hs as (col & Hcol & ->). simpl.
  exists col. split; [done|]. split; [done|]. split; [|split; [done|]].
  - unfold labels. simpl. rewrite <- list_fmap_compose.
    apply list_fmap_ext. intros i x _. simpl.
    by destruct (decide (x.1 = c)).
  - unfold columns_named at 1. simpl. rewrite filter_label_fmap.
    2:{ intros x. by destruct (decide (x.1 = c)). }
    fold (columns_named c d). rewrite Hcol. simpl.
    assert (col.1 = c) as Hc.
    { apply (columns_named_label c d). rewrite Hcol.
      apply list_elem_of_here. }
    rewrite decide_True by done. by rewrite Hc.
Qed.




Lemma mapM_ok_elem {A B} (f : A -> Result B) (xs : list A) ys x :
  mapM f xs = Ok ys -> x ∈ xs -> is_ok (f x) = true.
Proof.
  intros Hm [i Hi]%list_elem_of_lookup_1.
  destruct (mapM_lookup _ _ _ _ _ Hm Hi) as (y & _ & ->). done.
Qed.

(** An empty array in the source column stops the row exploder whenever the
    flattener refuses the missing-value marker, as pandas' own does (it
    iterates over what it is given): [explode] turns the empty array into
    [nan], [flatten] hands it on as it is, and the call raises without
    having allocated anything. *)
Theorem explode_json_to_rows_empty_array
  (literal_eval : string -> Result PyVal)
  (nested_to_record : PyVal -> option Z -> Result PyVal)
  (df : ref) (c : PyKey) (max_level : option Z) (h : Store)
  (d : DataFrame) (i : nat) :
  h !! df = Some d ->
  cell d c i = Some (VList []) ->
  is_ok (nested_to_record VNaN max_level) = false ->
  exists e,
    explode_json_to_rows literal_eval nested_to_record df c max_level h
    = (h, Raise e).
Proof.
  intros Hd Hcell Hnan.
  unfold explode_json_to_rows, st_bind, deref, lift. rewrite Hd.
  destruct (frame_explode d c) as [src|e] eqn:Hsrc; [|eauto].
  destruct (frame_getitem src c) as [s|e] eqn:Hs; [|eauto].
  destruct (series_apply_records _ s) as [flat|e] eqn:Hflat; [|eauto].
  exfalso.
  apply frame_explode_inv in Hsrc as (col & _ & Hcol & _ & _ & Hsrc_c).
  apply frame_getitem_inv in Hs as (col' & Hcol' & ->).
  rewrite Hsrc_c in Hcol'. injection Hcol' as <-.
  unfold series_apply_records in Hflat.
  apply rbind_ok in Hflat as (rows & Hrows & _). simpl in Hrows.
  unfold cell in Hcell. rewrite Hcol in Hcell.
  assert (Hin : VNaN ∈ concat (explode_cell <$> col.2)).
  { apply elem_of_concat. exists [VNaN]. split; [apply list_elem_of_here|].
    apply list_elem_of_fmap. exists (VList []). split; [done|].
    by eapply list_elem_of_lookup_2. }
  apply (mapM_ok_elem _ _ _ _ Hrows) in Hin.
  unfold flatten in Hin. simpl in Hin.
  destruct (nested_to_record VNaN max_level); done.
Qed.

Lemma explode_json_to_rows_empty_array_witness :
  (exists e,
     explode_json_to_rows (literal_eval_of []) nested_to_record_flat 0%nat
       (KStr "Line") None [lines_with_empty]
     = ([lines_with_empty], Raise e))
  /\ explode_json_to_rows (literal_eval_of []) nested_to_record_flat 0%nat
       (KStr "Line") None [lines_with_empty]
     = ([lines_with_empty], Raise TypeError)
  /\ is_ok (explode_json_to_rows (literal_eval_of []) nested_to_record_flat
              0%nat (KStr "Line") None [lines_without_empty]).2 = true.
Proof.
  split; [|split; vm_compute; reflexivity].
  apply (explode_json_to_rows_empty_array (literal_eval_of [])
           nested_to_record_flat 0%nat (KStr "Line") None
           [lines_with_empty] lines_with_empty 1%nat);
    reflexivity.
Defined.

(** ** The entity name of a file *)

Lemma prefix_head_ne (a b : ascii) (sep s : string) :
  a <> b -> String.prefix (String a sep) (String b s) = false.
Proof. intros Hne. simpl. by destruct (ascii_dec a b). Qed.

Lemma prefix_app_self (s r : string) : String.prefix s (s ++ r)%string = true.
Proof.
  induction s as [|a s IH]; [by destruct r|].
  rewrite append_cons. simpl. by destruct (ascii_dec a a).
Qed.

Lemma prefix_char_cons (a : ascii) (s : string) :
  String.prefix (String a "") (String a s) = true.
Proof. simpl. destruct (ascii_dec a a); [by destruct s | done]. Qed.

Lemma contains_char_cons_false (a b : ascii) (s : string) :
  contains (String a "") (String b s) = false ->
  a <> b /\ contains (String a "") s = false.
Proof.
  cbn [contains].
  destruct (String.prefix (String a "") (String b s)) eqn:Hp; [done|].
  intros Hc. split; [|done]. intros ->.
  by rewrite prefix_char_cons in Hp.
Qed.

Lemma contains_app_false (a : ascii) (s t : string) :
  contains (String a "") s = false -> contains (String a "") t = false ->
  contains (String a "") (s ++ t)%string = false.
Proof.
  intros Hs Ht. induction s as [|b s IH]; [done|].
  apply contains_char_cons_false in Hs as [Hne Hs].
  rewrite append_cons. cbn [contains]. rewrite prefix_head_ne by done.
  by apply IH.
Qed.

Lemma contains_false_prefix (sub s : string) :
  contains sub s = false -> String.prefix sub s = false.
Proof.
  destruct s; cbn [contains]; by destruct (String.prefix sub _).
Qed.

Lemma contains_app_char (a : ascii) (n z : string) :
  contains (String a "") (n ++ String a z)%string = true.
Proof.
  induction n as [|b n IH].
  - change ("" ++ String a z)%string with (String a z). cbn [contains].
    by rewrite prefix_char_cons.
  - rewrite append_cons. cbn [contains].
    by destruct (String.prefix _ (String b _)).
Qed.

(** Up to its first separator, [split] copies the text: characters that do
    not start a separator go to the piece being read. *)
Lemma hd_split_go_app (a : ascii) (sep n cur s : string) :
  contains (String a "") n = false ->
  hd ""%string (split_go (String a sep) 0 cur (n ++ s)%string)
  = hd ""%string (split_go (String a sep) 0 (cur ++ n)%string s).
Proof.
  revert cur. induction n as [|b n IH]; intros cur Hn.
  - by rewrite append_empty_r.
  - apply contains_char_cons_false in Hn as [Hne Hn].
    rewrite append_cons. cbn [split_go]. rewrite prefix_head_ne by done.
    rewrite IH by done. by rewrite append_assoc.
Qed.

Lemma hd_split_go_hit (sep cur : string) (c : ascii) (s : string) :
  String.prefix sep (String c s) = true ->
  hd ""%string (split_go sep 0 cur (String c s)) = cur.
Proof. intros Hp. cbn [split_go]. by rewrite Hp. Qed.

Lemma hd_split_go_extends (sep cur s : string) :
  exists x, hd ""%string (split_go sep 0 cur s) = (cur ++ x)%string.
Proof.
  revert cur. induction s as [|c s IH]; intros cur; cbn [split_go].
  - exists ""%string. simpl. by rewrite append_empty_r.
  - destruct (String.prefix sep (String c s)).
    + exists ""%string. simpl. by rewrite append_empty_r.
    + destruct (IH (cur ++ String c "")%string) as [x ->].
      exists (String c x). by rewrite append_assoc.
Qed.

(** The piece before the first occurrence of a one-character separator that
    follows a text free of it. *)
Lemma hd_split_char (a : ascii) (n z : string) :
  contains (String a "") n = false ->
  hd ""%string (split (n ++ String a z)%string (String a "")) = n.
Proof.
  intros Hn. unfold split. rewrite hd_split_go_app by done.
  apply hd_split_go_hit. apply prefix_char_cons.
Qed.

(** The naming convention of the folder loader: the entity of a file is the
    part of its base name that comes before the first hyphen, underscore or
    [.csv].  For a name free of slashes, dots, underscores and hyphens,
    followed by a hyphen, an underscore or [.csv] and any further text
    without a slash, the entity is that name, in whatever folder the file
    lies. *)
Theorem entity_type_of_name (folder name tail rest : string) :
  contains "/" name = false ->
  contains "." name = false ->
  contains "_" name = false ->
  contains "-" name = false ->
  contains "/" rest = false ->
  tail = ("-" ++ rest)%string \/ tail = ("_" ++ rest)%string
  \/ tail = (".csv" ++ rest)%string ->
  entity_type_of (path_join folder (name ++ tail)) = name.
Proof.
  intros Hslash Hdot Hunder Hhyphen Hrest Htail.
  assert (Htslash : contains "/" tail = false).
  { destruct Htail as [->|[->| ->]];
      by apply (contains_app_false "/"). }
  assert (Hentry : contains "/" (name ++ tail) = false)
    by (by apply (contains_app_false "/")).
  unfold entity_type_of. cbv zeta.
  rewrite last_split_path_join by (by try apply contains_false_prefix).
  assert (Hlast : forall z : string,
    (if contains "-" (name ++ String "-" z)
     then hd ""%string (split (name ++ String "-" z) "-")
     else (name ++ String "-" z)%string) = name).
  { intros z. rewrite (contains_app_char "-").
    by apply (hd_split_char "-"). }
  assert (Hpiece : forall (a c : ascii) (sep z : string),
    contains (String a "") name = false -> a <> c ->
    exists x, hd ""%string (split (name ++ String c z) (String a sep))
              = (name ++ String c x)%string).
  { intros a c sep z Hn Hne. unfold split.
    rewrite (hd_split_go_app a sep name "" (String c z)) by done.
    change ("" ++ name)%string with name.
    cbn [split_go]. rewrite prefix_head_ne by done.
    destruct (hd_split_go_extends (String a sep) (name ++ String c "") z)
      as [x ->].
    exists x. by rewrite append_assoc. }
  destruct Htail as [->|[->| ->]].
  - change ("-" ++ rest)%string with (String "-" rest).
    destruct (Hpiece "."%char "-"%char "csv" rest Hdot) as [x ->]; [done|].
    destruct (contains "_" (name ++ String "-" x)) eqn:Hu; [|apply Hlast].
    destruct (Hpiece "_"%char "-"%char "" x Hunder) as [y ->]; [done|].
    apply Hlast.
  - change ("_" ++ rest)%string with (String "_" rest).
    destruct (Hpiece "."%char "_"%char "csv" rest Hdot) as [x ->]; [done|].
    rewrite (contains_app_char "_").
    rewrite (hd_split_char "_") by done.
    by rewrite Hhyphen.
  - assert (hd ""%string (split (name ++ ".csv" ++ rest) ".csv") = name)
      as ->.
    { unfold split.
      rewrite (hd_split_go_app "." "csv" name "" (".csv" ++ rest)) by done.
      change ("" ++ name)%string with name.
      apply (hd_split_go_hit ".csv" name "." ("csv" ++ rest)).
      apply (prefix_app_self ".csv" rest). }
    by rewrite Hunder, Hhyphen.
Qed.

Lemma entity_type_of_name_witness :
  entity_type_of
    (path_join "exports/2020" ("Account" ++ "-20200811T121507.csv"))
  = "Account".
Proof.
  apply (entity_type_of_name "exports/2020" "Account"
           "-20200811T121507.csv" "20200811T121507.csv");
    first [ reflexivity | by left ].
Defined.

(** ** Folder loader: every file of the listing *)

Section LoaderFiles.
Variable isdir : string -> bool.
Variable listdir : string -> list string.
Variable isfile : string -> bool.
Variables IndexCol Converters : Type.
Variable read_csv :
  string -> option IndexCol -> option Converters -> Result DataFrame.
Variable converters : gmap string Converters.
Variable index_cols : gmap string IndexCol.

Lemma read_csv_folder_all_files (path : string) :
  read_csv_folder isdir listdir isfile IndexCol Converters read_csv
    path converters index_cols
  = load_files IndexCol Converters read_csv converters index_cols
      (all_files isdir listdir isfile path) ∅.
Proof. reflexivity. Qed.

(** What the loop has put under each key when it is through: what was there
    before, or else the table read from the first file of that entity. *)
Lemma load_files_spec (files : list string)
  (res0 res : gmap string DataFrame) :
  load_files IndexCol Converters read_csv converters index_cols files res0
  = Ok res ->
  forall e t,
    res !! e = Some t <->
    res0 !! e = Some t
    \/ (res0 !! e = None
        /\ exists i file,
             files !! i = Some file
             /\ entity_type_of file = e
             /\ (forall j f, (j < i)%nat -> files !! j = Some f ->
                   entity_type_of f <> e)
             /\ read_csv file (index_cols !! e) (converters !! e) = Ok t).
Proof.
  revert res0. induction files as [|file rest IH]; intros res0 Hload e t.
  - simpl in Hload. injection Hload as <-. split; [by left|].
    intros [?|(_ & i & f & Hi & _)]; [done|]. by destruct i.
  - simpl in Hload.
    destruct (res0 !! entity_type_of file) as [t0|] eqn:He0.
    + rewrite (IH _ Hload e t). split.
      * intros [?|(Hn & i & f & Hi & He & Hfirst & Hread)]; [by left|].
        right. split; [done|]. exists (S i), f. repeat split; try done.
        intros [|j] f' Hj Hf'; simpl in Hf'.
        -- injection Hf' as <-. congruence.
        -- apply (Hfirst j); [lia|done].
      * intros [?|(Hn & i & f & Hi & He & Hfirst & Hread)]; [by left|].
        right. split; [done|]. destruct i as [|i]; simpl in Hi.
        -- injection Hi as <-. congruence.
        -- exists i, f. repeat split; try done.
           intros j f' Hj Hf'. apply (Hfirst (S j)); [lia|done].
    + apply rbind_ok in Hload as (t0 & Hread0 & Hload).
      rewrite (IH _ Hload e t). split.
      * intros [Hin|(Hn & i & f & Hi & He & Hfirst & Hread)].
        -- destruct (decide (e = entity_type_of file)) as [->|Hne].
           ++ rewrite lookup_insert_eq in Hin. injection Hin as <-.
              right. split; [done|]. exists 0%nat, file.
              repeat split; try done. intros j f' Hj. lia.
           ++ rewrite lookup_insert_ne in Hin by done. by left.
        -- destruct (decide (e = entity_type_of file)) as [->|Hne].
           { by rewrite lookup_insert_eq in Hn. }
           rewrite lookup_insert_ne in Hn by done.
           right. split; [done|]. exists (S i), f. repeat split; try done.
           intros [|j] f' Hj Hf'; simpl in Hf'.
           ++ injection Hf' as <-. congruence.
           ++ apply (Hfirst j); [lia|done].
      * intros [Hin|(Hn & i & f & Hi & He & Hfirst & Hread)].
        -- left. rewrite lookup_insert_ne; [done|]. congruence.
        -- destruct i as [|i]; simpl in Hi.
           ++ injection Hi as <-. subst e. left.
              rewrite lookup_insert_eq. congruence.
           ++ assert (Hne : entity_type_of file <> e)
                by (apply (Hfirst 0%nat); [lia|done]).
              right. rewrite lookup_insert_ne by done. split; [done|].
              exists i, f. repeat split; try done.
              intros j f' Hj Hf'. apply (Hfirst (S j)); [lia|done].
Qed.

Lemma load_files_raise (files : list string) (res0 : gmap string DataFrame)
  (err : PyExc) :
  load_files IndexCol Converters read_csv converters index_cols files res0
  = Raise err ->
  exists i file,
    files !! i = Some file
    /\ res0 !! entity_type_of file = None
    /\ (forall j f, (j < i)%nat -> files !! j = Some f ->
          entity_type_of f <> entity_type_of file)
    /\ read_csv file (index_cols !! entity_type_of file)
         (converters !! entity_type_of file) = Raise err.
Proof.
  revert res0. induction files as [|file rest IH]; intros res0 Hload;
    [done|].
  simpl in Hload.
  destruct (res0 !! entity_type_of file) as [t0|] eqn:He0.
  - destruct (IH _ Hload) as (i & f & Hi & Hn & Hfirst & Hread).
    exists (S i), f. repeat split; try done.
    intros [|j] f' Hj Hf'; simpl in Hf'.
    + injection Hf' as <-. congruence.
    + apply (Hfirst j); [lia|done].
  - destruct (read_csv file _ _) as [t0|err0] eqn:Hread0; simpl in Hload.
    + destruct (IH _ Hload) as (i & f & Hi & Hn & Hfirst & Hread).
      assert (Hne : entity_type_of file <> entity_type_of f).
      { intros Heq. rewrite <- Heq, lookup_insert_eq in Hn. done. }
      rewrite lookup_insert_ne in Hn by done.
      exists (S i), f. repeat split; try done.
      intros [|j] f' Hj Hf'; simpl in Hf'.
      * by injection Hf' as <-.
      * apply (Hfirst j); [lia|done].
    + injection Hload as <-. exists 0%nat, file.
      repeat split; try done. intros j f' Hj. lia.
Qed.

Lemma load_files_returns (files : list string)
  (res0 : gmap string DataFrame) :
  (forall file, file ∈ files ->
     is_ok (read_csv file (index_cols !! entity_type_of file)
              (converters !! entity_type_of file)) = true) ->
  is_ok (load_files IndexCol Converters read_csv converters index_cols
           files res0) = true.
Proof.
  revert res0. induction files as [|file rest IH]; intros res0 Hall;
    [done|].
  simpl. destruct (res0 !! entity_type_of file).
  - apply IH. intros f Hf. apply Hall. by right.
  - pose proof (Hall file (list_elem_of_here _ _)) as Hfile.
    destruct (read_csv file _ _); [|done]. simpl.
    apply IH. intros f Hf. apply Hall. by right.
Qed.

(** The mapping the folder loader returns: an entity is a key exactly when
    one of the files gone through is of that entity, and its table is the
    one read from the first such file, with the index column and the
    converters registered for the entity; the later files of the entity are
    not read. *)
Theorem read_csv_folder_first_of_each_entity (path : string)
  (res : gmap string DataFrame) :
  read_csv_folder isdir listdir isfile IndexCol Converters read_csv
    path converters index_cols = Ok res ->
  forall e t,
    res !! e = Some t <->
    exists i file,
      all_files isdir listdir isfile path !! i = Some file
      /\ entity_type_of file = e
      /\ (forall j f, (j < i)%nat ->
            all_files isdir listdir isfile path !! j = Some f ->
            entity_type_of f <> e)
      /\ read_csv file (index_cols !! e) (converters !! e) = Ok t.
Proof.
  rewrite read_csv_folder_all_files. intros Hload e t.
  rewrite (load_files_spec _ _ _ Hload e t). rewrite lookup_empty.
  split.
  - by intros [?|[_ ?]].
  - intros ?. by right.
Qed.

(** When the folder loader returns and when it raises: it returns whenever
    every file gone through can be read; and when it raises, the error is
    that of reading a file that is the first of its entity. *)
Theorem read_csv_folder_outcome (path : string) :
  ((forall file, file ∈ all_files isdir listdir isfile path ->
      is_ok (read_csv file (index_cols !! entity_type_of file)
               (converters !! entity_type_of file)) = true) ->
   is_ok (read_csv_folder isdir listdir isfile IndexCol Converters read_csv
            path converters index_cols) = true)
  /\ (forall err,
        read_csv_folder isdir listdir isfile IndexCol Converters read_csv
          path converters index_cols = Raise err ->
        exists i file,
          all_files isdir listdir isfile path !! i = Some file
          /\ (forall j f, (j < i)%nat ->
                all_files isdir listdir isfile path !! j = Some f ->
                entity_type_of f <> entity_type_of file)
          /\ read_csv file (index_cols !! entity_type_of file)
               (converters !! entity_type_of file) = Raise err).
Proof.
  rewrite read_csv_folder_all_files. split.
  - apply load_files_returns.
  - intros err Hload.
    destruct (load_files_raise _ _ _ Hload)
      as (i & file & Hi & _ & Hfirst & Hread).
    eauto 10.
Qed.

(** The two edge inputs.  A path that is not a folder is read as one file,
    whatever its name ends in, and the mapping has the one key of its
    entity; a failure of the read is the outcome of the call.  A folder in
    which no entry is a regular file with a name ending in [.csv] gives the
    empty mapping, and nothing is read. *)
Theorem read_csv_folder_edge_inputs (path : string) :
  (isdir path = false ->
   read_csv_folder isdir listdir isfile IndexCol Converters read_csv
     path converters index_cols
   = (t <- read_csv path (index_cols !! entity_type_of path)
             (converters !! entity_type_of path) ;;
      Ok {[entity_type_of path := t]}))
  /\ (isdir path = true ->
      (forall entry, entry ∈ listdir path ->
         isfile (path_join path entry)
         && endswith (path_join path entry) ".csv" = false) ->
      read_csv_folder isdir listdir isfile IndexCol Converters read_csv
        path converters index_cols = Ok ∅).
Proof.
  split.
  - intros Hdir. unfold read_csv_folder. rewrite Hdir.
    cbn [load_files]. rewrite lookup_empty.
    destruct (read_csv path _ _); [|done]. simpl. by rewrite insert_empty.
  - intros Hdir Hnone. unfold read_csv_folder. rewrite Hdir.
    rewrite filter_none; [done|].
    intros entry Hentry. rewrite (Hnone entry Hentry). done.
Qed.
End LoaderFiles.

(** ** Column exploder: arrays of pairs, and keys that clash *)

(** An array of name/value records, in every row: when the source cell of
    a row holds such an array, as a value or as text that decodes to it, and
    no name is [nan], the returned table has, under each name, the value of
    the last record of the array that carries this name, as pandas stores
    it. *)
Theorem explode_json_to_cols_name_value_pairs
  (literal_eval : string -> Result PyVal) (df : ref) (c : PyKey)
  (h h' : Store) (r : ref) (d : DataFrame) (i : nat) (y : PyVal)
  (ds : list (list (string * PyVal))) (ks : list PyKey)
  (j : nat) (rec : list (string * PyVal)) (k : PyKey) :
  h !! df = Some d ->
  rectangular d ->
  NoDup (df_index d) ->
  NoDup (labels d) ->
  cell d c i = Some y ->
  decoded literal_eval y = Ok (VList (VDict <$> ds)) ->
  Forall2 (fun d k => hash_key (py_get d "Name") = Ok k) ds ks ->
  Forall (fun k => k <> KNaN) ks ->
  ds !! j = Some rec ->
  ks !! j = Some k ->
  (forall j', (j < j')%nat -> ks !! j' <> Some k) ->
  (k ∈ labels d -> k = c) ->
  explode_json_to_cols literal_eval df c None h = (h', Ok r) ->
  exists out,
    h' !! r = Some out
    /\ stored_as (py_get rec "Value") (cell out k i).
Proof.
  intros Hd Hrect Hndi Hndl Hcell Hdec Hks _ Hj Hkj Hlast Hnew Hrun.
  destruct (explode_json_to_cols_cells_spec _ _ _ _ _ _ _ _
              Hd Hrect Hndi Hndl Hrun) as (out & Hout & _ & _ & Hrows).
  destruct (Hrows i y Hcell) as (fields & Hfields & Hkeys & Hcells).
  destruct (reduce_records_spec "Name" "Value" ds ks Hks)
    as (acc & Hacc & _ & Hget).
  assert (fields = acc) as ->.
  { unfold json_to_series in Hfields. fold (decoded literal_eval y) in Hfields.
    rewrite Hdec in Hfields. simpl in Hfields.
    unfold default_reducer in Hfields. rewrite Hacc in Hfields.
    by injection Hfields as <-. }
  specialize (Hget j rec k Hj Hkj Hlast).
  exists out. split; [done|].
  rewrite Hcells; [|by eapply Hkeys, dict_get_Some_keys|done].
  unfold record_field. rewrite Hget. apply stored_as_self.
Qed.

Lemma explode_json_to_cols_name_value_pairs_witness :
  exists out,
    [customers; customers_exploded] !! 1%nat = Some out
    /\ stored_as
         (py_get [("Name", VStr "Last"); ("Value", VStr "Smith")] "Value")
         (cell out (KStr "Last") 0).
Proof.
  apply (explode_json_to_cols_name_value_pairs (literal_eval_of []) 0%nat
           (KStr "CustomField") [customers] [customers; customers_exploded]
           1%nat customers 0%nat first_last
           [[("Name", VStr "First"); ("Value", VStr "John")];
            [("Name", VStr "Last"); ("Value", VStr "Smith")]]
           [KStr "First"; KStr "Last"] 1%nat
           [("Name", VStr "Last"); ("Value", VStr "Smith")] (KStr "Last")
           eq_refl).
  - unfold rectangular. repeat constructor.
  - compute_done.
  - compute_done.
  - reflexivity.
  - reflexivity.
  - repeat constructor.
  - repeat constructor; discriminate.
  - reflexivity.
  - reflexivity.
  - intros [|[|[|j']]] Hj'; first [ lia | done ].
  - intros Hin. exfalso. revert Hin. compute_done.
  - vm_compute. reflexivity.
Defined.

Lemma st_bind_raise {A B} (m : M A) (k : A -> M B) (h h1 : Store) e :
  m h = (h1, Raise e) -> st_bind m k h = (h1, Raise e).
Proof. intros Hm. unfold st_bind. by rewrite Hm. Qed.

(** A key that clashes with a column: when a record built from a source
    cell has a key that already names another column of the table, the join
    of the new columns is refused; the call raises [ValueError] and
    allocates nothing. *)
Theorem explode_json_to_cols_key_clash
  (literal_eval : string -> Result PyVal) (df : ref) (c : PyKey)
  (reducer : option Reducer) (h : Store) (d : DataFrame)
  (vals : list PyVal) (rows : list Fields) (k : PyKey) :
  h !! df = Some d ->
  NoDup (labels d) ->
  (c, vals) ∈ df_columns d ->
  mapM (json_to_series literal_eval (default default_reducer reducer)) vals
  = Ok rows ->
  k ∈ concat (dict_keys <$> rows) ->
  k ∈ labels d ->
  k <> c ->
  explode_json_to_cols literal_eval df c reducer h = (h, Raise ValueError).
Proof.
  intros Hd Hnd Hcol Hrows Hk Hkd Hkc.
  assert (Hc : c ∈ labels d).
  { unfold labels. apply list_elem_of_fmap. by exists (c, vals). }
  assert (Hcols : columns_named c d = [(c, vals)]).
  { destruct (NoDup_labels_singleton d c Hnd Hc) as [col Hcols].
    assert (Hin : (c, vals) ∈ columns_named c d)
      by (by apply columns_named_elem).
    rewrite Hcols in Hin. apply list_elem_of_singleton in Hin as <-. done. }
  set (child := {| df_index := df_index d; df_columns := df_columns d |}).
  set (dropped := {| df_index := df_index d;
                     df_columns := filter (fun col => col.1 <> c)
                                     (df_columns d) |}).
  unfold explode_json_to_cols. cbv zeta.
  rewrite (st_bind_run _ _ h h d) by (unfold deref; by rewrite Hd).
  rewrite (st_bind_run _ _ h h child).
  2:{ unfold lift. rewrite frame_select_ok by done.
      by rewrite frame_select_self. }
  rewrite (st_bind_run _ _ h h dropped).
  2:{ unfold lift, frame_drop. by rewrite bool_decide_eq_true_2. }
  rewrite (st_bind_run _ _ h h
             {| s_name := Some c; s_index := df_index d; s_values := vals |}).
  2:{ unfold lift, frame_getitem.
      change (columns_named c child) with (columns_named c d).
      by rewrite Hcols. }
  destruct rows as [|row0 rows'].
  { simpl in Hk. by apply not_elem_of_nil in Hk. }
  set (rows := row0 :: rows') in *.
  rewrite (st_bind_run _ _ h h
             (AppliedFrame
                {| df_index := df_index d;
                   df_columns :=
                     (fun c0 => (c0, record_field c0 <$> rows))
                       <$> unique (concat (dict_keys <$> rows)) |})).
  2:{ unfold lift, series_apply_records. cbn [s_values s_index s_name].
      change (mapM (json_to_series literal_eval
                      (default (array_to_dict_reducer "Name" "Value")
                         reducer)) vals = Ok rows) in Hrows.
      rewrite Hrows. reflexivity. }
  apply st_bind_raise. unfold lift, frame_join_applied, frame_join.
  rewrite bool_decide_eq_true_2; [done|].
  apply Exists_exists. exists k. split.
  - unfold dropped, labels. simpl. apply list_elem_of_fmap.
    apply list_elem_of_fmap in Hkd as (col & -> & Hin).
    exists col. split; [done|]. by apply list_elem_of_filter.
  - rewrite labels_records. by apply elem_of_unique.
Qed.

Lemma explode_json_to_cols_key_clash_witness :
  explode_json_to_cols (literal_eval_of []) 0%nat (KStr "CustomField") None
    [customers_with_first]
  = ([customers_with_first], Raise ValueError).
Proof.
  apply (explode_json_to_cols_key_clash (literal_eval_of []) 0%nat
           (KStr "CustomField") None [customers_with_first]
           customers_with_first [first_last]
           [[(KStr "First", VStr "John"); (KStr "Last", VStr "Smith")]]
           (KStr "First") eq_refl).
  - compute_done.
  - apply list_elem_of_further, list_elem_of_here.
  - reflexivity.
  - compute_done.
  - compute_done.
  - discriminate.
Defined.

(** ** Folder loader on the worked folder *)

Lemma read_csv_folder_first_of_each_entity_witness :
  ({["Account" := accounts_table]} : gmap string DataFrame) !! "Account"
  = Some accounts_table
  <-> exists i file,
        all_files data_isdir data_listdir data_isfile "data" !! i = Some file
        /\ entity_type_of file = "Account"
        /\ (forall j f, (j < i)%nat ->
              all_files data_isdir data_listdir data_isfile "data" !! j
              = Some f ->
              entity_type_of f <> "Account")
        /\ data_read_csv file ((∅ : gmap string string) !! "Account")
             ((∅ : gmap string unit) !! "Account") = Ok accounts_table.
Proof.
  apply (read_csv_folder_first_of_each_entity data_isdir data_listdir
           data_isfile string unit data_read_csv ∅ ∅ "data"
           {["Account" := accounts_table]}).
  vm_compute. reflexivity.
Defined.

Lemma read_csv_folder_outcome_witness :
  exists i file,
    all_files data_isdir data_listdir data_isfile "data" !! i = Some file
    /\ (forall j f, (j < i)%nat ->
          all_files data_isdir data_listdir data_isfile "data" !! j = Some f ->
          entity_type_of f <> entity_type_of file)
    /\ (fun (_ : string) (_ : option string) (_ : option unit) =>
          Raise ValueError : Result DataFrame)
         file ((∅ : gmap string string) !! entity_type_of file)
         ((∅ : gmap string unit) !! entity_type_of file)
       = Raise ValueError.
Proof.
  destruct (read_csv_folder_outcome data_isdir data_listdir data_isfile
              string unit
              (fun _ _ _ => Raise ValueError : Result DataFrame) ∅ ∅ "data")
    as [_ Hraise].
  apply Hraise. reflexivity.
Defined.

Lemma read_csv_folder_edge_inputs_witness :
  read_csv_folder data_isdir data_listdir data_isfile string unit
    data_read_csv "data/Account-1.csv" ∅ ∅
  = (t <- data_read_csv "data/Account-1.csv"
            ((∅ : gmap string string) !! entity_type_of "data/Account-1.csv")
            ((∅ : gmap string unit) !! entity_type_of "data/Account-1.csv") ;;
     Ok {[entity_type_of "data/Account-1.csv" := t]}).
Proof.
  destruct (read_csv_folder_edge_inputs data_isdir data_listdir data_isfile
              string unit data_read_csv ∅ ∅ "data/Account-1.csv")
    as [Hfile _].
  apply Hfile. reflexivity.
Defined.
